(** * King-safety evaluation of the chess engine (src/main.cpp)

    A shallow embedding of the king-safety scorer and of the square geometry
    it rests on.  C++ [int] values are modelled in [Z] (every intermediate
    value stays far inside the 32-bit range: ranks, files, character codes and
    counters of at most eight), [double] values are IEEE-754 binary64 floats
    ([PrimFloat], every product and every sum rounded on its own),
    [std::optional] is [option], and a C++ exception is the [Throw] branch of
    [result].

    The rules engine (class [Chess] of chesscpp.h) is only declared in the
    repository; a value of the record [Chess] collects the answers the engine
    gives on one frozen position.  The free functions [squareToString] and
    [stringToSquare] of chesscpp.h, and the two heuristics that
    [evaluateKingSafety] calls but the repository never defines
    ([evaluatePositioning], [evaluateOpenFiles]), are section variables. *)

From Stdlib Require Import ZArith List Sorted String Ascii Bool Lia.
From Stdlib Require Import PrimFloat Uint63 DecimalString.
Import ListNotations.
Local Open Scope Z_scope.
#[local] Set Warnings "-inexact-float".

(** ** exptypes.h *)

(** [enum class square : int { a8 = 0, b8, ..., h1 }]: any [int] can be cast
    to it, so a square is its underlying integer. *)
Definition square := Z.

Definition a8 : square := 0.
Definition e8 : square := 4.
Definition h8 : square := 7.
Definition d7 : square := 11.
Definition e7 : square := 12.
Definition f7 : square := 13.
Definition e3 : square := 44.
Definition a2 : square := 48.
Definition b2 : square := 49.
Definition d2 : square := 51.
Definition e2 : square := 52.
Definition f2 : square := 53.
Definition a1 : square := 56.
Definition b1 : square := 57.
Definition d1 : square := 59.
Definition e1 : square := 60.
Definition f1 : square := 61.
Definition h1 : square := 63.

(** [enum class pieceSymbol { p, n, b, r, q, k }], named by the macros the
    code uses. *)
Inductive pieceSymbol := PAWN | KNIGHT | BISHOP | ROOK | QUEEN | KING.

(** [enum class color { w, b }], named by the macros [WHITE] and [BLACK]. *)
Inductive color := WHITE | BLACK.

Definition pieceSymbol_eqb (x y : pieceSymbol) : bool :=
  match x, y with
  | PAWN, PAWN | KNIGHT, KNIGHT | BISHOP, BISHOP
  | ROOK, ROOK | QUEEN, QUEEN | KING, KING => true
  | _, _ => false
  end.

Definition color_eqb (x y : color) : bool :=
  match x, y with
  | WHITE, WHITE | BLACK, BLACK => true
  | _, _ => false
  end.

(** The table [SQUARES] of exptypes.h. *)
Definition SQUARES : list string :=
  [ "a8"; "b8"; "c8"; "d8"; "e8"; "f8"; "g8"; "h8";
    "a7"; "b7"; "c7"; "d7"; "e7"; "f7"; "g7"; "h7";
    "a6"; "b6"; "c6"; "d6"; "e6"; "f6"; "g6"; "h6";
    "a5"; "b5"; "c5"; "d5"; "e5"; "f5"; "g5"; "h5";
    "a4"; "b4"; "c4"; "d4"; "e4"; "f4"; "g4"; "h4";
    "a3"; "b3"; "c3"; "d3"; "e3"; "f3"; "g3"; "h3";
    "a2"; "b2"; "c2"; "d2"; "e2"; "f2"; "g2"; "h2";
    "a1"; "b1"; "c1"; "d1"; "e1"; "f1"; "g1"; "h1" ]%string.

(** [struct move]. *)
Record move := {
  move_color : color;
  move_from : square;
  move_to : square;
  move_piece : option pieceSymbol;
  move_captured : option pieceSymbol;
  move_promotion : option pieceSymbol;
  move_flags : string;
  move_san : string;
  move_lan : string;
  move_before : string;
  move_after : string
}.

(** ** Exceptions *)

(** The exceptions the evaluation can raise: [std::bad_optional_access] from
    [optional::value], [std::out_of_range] from [map::at], and whatever a
    collaborator raises. *)
Inductive exn := bad_optional_access | out_of_range | collaborator_error.

Inductive result (A : Type) : Type :=
| Ok (a : A)
| Throw (e : exn).
Arguments Ok {A} a.
Arguments Throw {A} e.

Definition bind {A B : Type} (m : result A) (k : A -> result B) : result B :=
  match m with
  | Ok a => k a
  | Throw e => Throw e
  end.

Declare Scope result_scope.
Delimit Scope result_scope with result.
Notation "x <- m ;; k" := (bind m (fun x => k))
  (at level 100, m at next level, right associativity) : result_scope.
Local Open Scope result_scope.

(** [std::optional<T>::value()]. *)
Definition value {A : Type} (o : option A) : result A :=
  match o with
  | Some a => Ok a
  | None => Throw bad_optional_access
  end.

(** ** chesscpp.h: the rules engine on one position *)

(** [squ] of main.cpp: one cell of [Chess::board()]. *)
Definition squ := option (square * pieceSymbol * color).

Record Chess := {
  board : list (list squ);
  turn : color;
  isAttacked : square -> color -> bool;
  getAttackingPieces : color -> square -> list (option pieceSymbol);
  moves : option string -> option pieceSymbol -> list move
}.

(** ** Numbers *)

(** Conversion of an [int] to [double]; exact on the whole 32-bit range. *)
Definition double_of_int (z : Z) : float :=
  if z <? 0 then PrimFloat.opp (PrimFloat.of_uint63 (Uint63.of_Z (- z)))
  else PrimFloat.of_uint63 (Uint63.of_Z z).

(** Promotion of a plain [char] to [int] (plain [char] signed, as on x86). *)
Definition int_of_char (c : ascii) : Z :=
  let n := Z.of_N (N_of_ascii c) in
  if n <? 128 then n else n - 256.

(** [s[i]] of a [std::string]: the character, and NUL at [s.size()].  An
    index past the size is undefined in C++; it reads as NUL here too. *)
Definition char_at (s : string) (i : nat) : Z :=
  match String.get i s with
  | Some c => int_of_char c
  | None => 0
  end.

(** [std::to_string(int)]: the decimal notation. *)
Definition to_string (z : Z) : string := NilZero.string_of_int (Z.to_int z).

(** ** main.cpp *)

(** The local map [pieceValue] of [getPieceValue]. *)
Definition pieceValue : list (pieceSymbol * Z) :=
  [ (PAWN, 1); (BISHOP, 3); (KNIGHT, 3); (QUEEN, 9); (ROOK, 5); (KING, 200) ].

(** [std::map::at]. *)
Fixpoint map_at (m : list (pieceSymbol * Z)) (key : pieceSymbol) : result Z :=
  match m with
  | [] => Throw out_of_range
  | (k, v) :: m' => if pieceSymbol_eqb k key then Ok v else map_at m' key
  end.

Definition getPieceValue (p : pieceSymbol) : result Z := map_at pieceValue p.

(** [static_cast<int>(sq) / 8] and [% 8]: C++ division truncates. *)
Definition getRank (sq : square) : Z := Z.quot sq 8.

Definition getFile (sq : square) : Z := Z.rem sq 8.

Definition createSquare (rank file : Z) : option square :=
  if (0 <=? rank) && (rank <? 8) && (0 <=? file) && (file <? 8)
  then Some (rank * 8 + file)
  else None.

Definition offsets : list (Z * Z) :=
  [ (-1, -1); (-1, 0); (-1, 1);
    (0, -1);           (0, 1);
    (1, -1);  (1, 0);  (1, 1) ].

(** The loop of [getSurroundingSquares]: [surrounding] is the vector built so
    far. *)
Fixpoint surroundingLoop (rank file : Z) (offs : list (Z * Z))
    (surrounding : list square) : list square :=
  match offs with
  | [] => surrounding
  | offset :: rest =>
      let neighbor := createSquare (rank + fst offset) (file + snd offset) in
      match neighbor with
      | Some n => surroundingLoop rank file rest (surrounding ++ [n])
      | None => surroundingLoop rank file rest surrounding
      end
  end.

Definition getSurroundingSquares (sq : square) : list square :=
  let rank := getRank sq in
  let file := getFile sq in
  surroundingLoop rank file offsets [].

(** The inner and outer loops of [pieceOnSquare]; the first matching cell
    returns. *)
Fixpoint pieceOnSquare_row (row : list squ) (sq : square)
    : option (pieceSymbol * color) :=
  match row with
  | [] => None
  | None :: row' => pieceOnSquare_row row' sq
  | Some (s, ps, c) :: row' =>
      if s =? sq then Some (ps, c) else pieceOnSquare_row row' sq
  end.

Fixpoint pieceOnSquare_rows (rows : list (list squ)) (sq : square)
    : option (pieceSymbol * color) :=
  match rows with
  | [] => None
  | row :: rows' =>
      match pieceOnSquare_row row sq with
      | Some found => Some found
      | None => pieceOnSquare_rows rows' sq
      end
  end.

Definition pieceOnSquare (game : Chess) (sq : square)
    : option (pieceSymbol * color) :=
  pieceOnSquare_rows (board game) sq.

(** [optional<pair> == pair]: engaged and equal. *)
Definition optional_pair_eqb (o : option (pieceSymbol * color))
    (v : pieceSymbol * color) : bool :=
  match o with
  | Some (ps, c) => pieceSymbol_eqb ps (fst v) && color_eqb c (snd v)
  | None => false
  end.

(** The loop of [evaluatePawnShield] over [shieldSquares]. *)
Fixpoint shieldLoop (game : Chess) (shieldSquares : list square)
    (shieldBonus : Z) : Z :=
  match shieldSquares with
  | [] => shieldBonus
  | sq :: rest =>
      if optional_pair_eqb (pieceOnSquare game sq) (PAWN, WHITE)
      then shieldLoop game rest (shieldBonus + 1)
      else shieldLoop game rest shieldBonus
  end.

(** The inner loop of [evaluateEnemyAttacks] over the attackers of one
    square.  [getPieceValue(...) / 10] divides two [int]s; the quotient is
    converted to [double] when it is added to [attackScore]. *)
Fixpoint attackersLoop (game : Chess) (opponentSide : color) (sq : square)
    (attackingPieces : list (option pieceSymbol)) (attackScore : float)
    : result float :=
  match attackingPieces with
  | [] => Ok attackScore
  | attacker :: rest =>
      if isAttacked game sq opponentSide then
        a <- value attacker ;;
        v <- getPieceValue a ;;
        attackersLoop game opponentSide sq rest
          (attackScore + double_of_int (Z.quot v 10))%float
      else attackersLoop game opponentSide sq rest attackScore
  end.

(** [attackingPieces.empty() || attackingPieces[0] == std::nullopt]. *)
Definition noAttackers (attackingPieces : list (option pieceSymbol)) : bool :=
  match attackingPieces with
  | [] => true
  | None :: _ => true
  | Some _ :: _ => false
  end.

(** The outer loop of [evaluateEnemyAttacks] over [safetyZone]. *)
Fixpoint zoneLoop (game : Chess) (opponentSide : color)
    (safetyZone : list square) (attackScore : float) : result float :=
  match safetyZone with
  | [] => Ok attackScore
  | sq :: rest =>
      let attackingPieces := getAttackingPieces game opponentSide sq in
      if noAttackers attackingPieces
      then zoneLoop game opponentSide rest attackScore
      else
        attackScore' <-
          attackersLoop game opponentSide sq attackingPieces attackScore ;;
        zoneLoop game opponentSide rest attackScore'
  end.

Definition evaluateEnemyAttacks (game : Chess) (kingPos : square)
    (isWhite : bool) : result float :=
  let attackScore := 0%float in
  let safetyZone := getSurroundingSquares kingPos in
  let opponentSide := if isWhite then BLACK else WHITE in
  zoneLoop game opponentSide safetyZone attackScore.

(** The loop of [evaluateExposedKing] over [squaresAroundKing]. *)
Fixpoint exposedLoop (game : Chess) (currentColor opponentSide : color)
    (squaresAroundKing : list square) (exposedPenalty : Z) : result Z :=
  match squaresAroundKing with
  | [] => Ok exposedPenalty
  | sq :: rest =>
      found <- value (pieceOnSquare game sq) ;;
      let isPieceOpponent := negb (color_eqb (snd found) currentColor) in
      let isSquareAttacked := isAttacked game sq opponentSide in
      if isPieceOpponent || isSquareAttacked
      then exposedLoop game currentColor opponentSide rest (exposedPenalty + 1)
      else exposedLoop game currentColor opponentSide rest exposedPenalty
  end.

Definition evaluateExposedKing (game : Chess) (kingPos : square)
    (isWhite : bool) : result Z :=
  let exposedPenalty := 0 in
  let squaresAroundKing := getSurroundingSquares kingPos in
  let currentColor := if isWhite then WHITE else BLACK in
  let opponentSide :=
    if color_eqb currentColor WHITE then BLACK else WHITE in
  exposedLoop game currentColor opponentSide squaresAroundKing exposedPenalty.

(** The king search of [evaluateKingSafety].  [break] leaves the inner loop
    only, so the rows after a hit are still scanned. *)
Fixpoint kingRowLoop (row : list squ) (isWhite : bool)
    (kingPosition : square) : square :=
  match row with
  | [] => kingPosition
  | None :: row' => kingRowLoop row' isWhite kingPosition
  | Some (s, ps, c) :: row' =>
      if negb (pieceSymbol_eqb ps KING)
      then kingRowLoop row' isWhite kingPosition
      else if color_eqb c WHITE && isWhite then s
      else if color_eqb c BLACK && negb isWhite then s
      else kingRowLoop row' isWhite kingPosition
  end.

Fixpoint kingBoardLoop (rows : list (list squ)) (isWhite : bool)
    (kingPosition : square) : square :=
  match rows with
  | [] => kingPosition
  | row :: rows' =>
      kingBoardLoop rows' isWhite (kingRowLoop row isWhite kingPosition)
  end.

(** The weights of [evaluateKingSafety]. *)
Definition pawnShieldWeight : float := 1.0.
Definition exposedKingWeight : float := (-0.5).
Definition enemyAttacksWeight : float := (-0.2).
Definition kingPositioningWeight : float := (-0.8).
Definition openFilesWeight : float := (-1.0).
Definition mobilityWeight : float := 0.1.

(** *** The record of heuristic calls

    [evaluateKingSafety] is followed together with the list of the heuristic
    calls it has made so far, each with the arguments passed. *)
Inductive heuristic :=
| PawnShield | ExposedKing | EnemyAttacks
| KingPositioning | KingMobility | OpenFiles.

Record invocation := {
  callee : heuristic;
  gameArg : Chess;
  kingPosArg : square;
  isWhiteArg : option bool
}.

Definition traced (A : Type) : Type := list invocation * result A.

Definition invoke {A : Type} (h : heuristic) (game : Chess) (kingPos : square)
    (isWhite : option bool) (r : result A) : traced A :=
  ([ {| callee := h; gameArg := game; kingPosArg := kingPos;
        isWhiteArg := isWhite |} ], r).

Definition tret {A : Type} (a : A) : traced A := ([], Ok a).

Definition tbind {A B : Type} (m : traced A) (k : A -> traced B) : traced B :=
  match m with
  | (calls, Ok a) => let (calls', r) := k a in (calls ++ calls', r)
  | (calls, Throw e) => (calls, Throw e)
  end.

Notation "x <~ m ;; k" := (tbind m (fun x => k))
  (at level 100, m at next level, right associativity) : result_scope.

Section KingSafety.

(** chesscpp.h: [std::string squareToString(square)] and
    [square stringToSquare(const std::string&)], the latter free to raise. *)
Variable squareToString : square -> string.
Variable stringToSquare : string -> result square.

(** Called by [evaluateKingSafety], defined nowhere in the repository.
    Their results are taken after conversion to [double]. *)
Variable evaluatePositioning : Chess -> square -> bool -> result float.
Variable evaluateOpenFiles : Chess -> square -> bool -> result float.

Definition evaluatePawnShield (game : Chess) (kingPos : square)
    (isWhite : bool) : result Z :=
  let shieldBonus := 0 in
  let direction := if isWhite then 1 else -1 in
  let strKingPos := squareToString kingPos in
  s1 <- stringToSquare
          (to_string (char_at strKingPos 1 + direction)
           ++ to_string (char_at strKingPos 0 - 1))%string ;;
  s2 <- stringToSquare
          (to_string (char_at strKingPos 1 + direction)
           ++ to_string (char_at strKingPos 0))%string ;;
  s3 <- stringToSquare
          (to_string (char_at strKingPos 1 + direction)
           ++ to_string (char_at strKingPos 0 + 1))%string ;;
  let shieldSquares := [s1; s2; s3] in
  Ok (shieldLoop game shieldSquares shieldBonus).

Definition evaluateKingMobility (game : Chess) (kingPos : square)
    : result Z :=
  found <- value (pieceOnSquare game kingPos) ;;
  Ok (Z.of_nat
        (List.length
           (moves game (Some (squareToString kingPos)) (Some (fst found))))).

(** [kingPosition] is declared without an initialiser; [uninitialised] is
    the value the variable holds before the search assigns it. *)
Definition evaluateKingSafety (uninitialised : square) (game : Chess)
    : traced float :=
  let isWhite := color_eqb (turn game) WHITE in
  let kingPosition := kingBoardLoop (board game) isWhite uninitialised in
  let safetyScore := 0%float in
  ps <~ invoke PawnShield game kingPosition (Some isWhite)
          (evaluatePawnShield game kingPosition isWhite) ;;
  let safetyScore :=
    (safetyScore + pawnShieldWeight * double_of_int ps)%float in
  ek <~ invoke ExposedKing game kingPosition (Some isWhite)
          (evaluateExposedKing game kingPosition isWhite) ;;
  let safetyScore :=
    (safetyScore + exposedKingWeight * double_of_int ek)%float in
  ea <~ invoke EnemyAttacks game kingPosition (Some isWhite)
          (evaluateEnemyAttacks game kingPosition isWhite) ;;
  let safetyScore := (safetyScore + enemyAttacksWeight * ea)%float in
  kp <~ invoke KingPositioning game kingPosition (Some isWhite)
          (evaluatePositioning game kingPosition isWhite) ;;
  let safetyScore := (safetyScore + kingPositioningWeight * kp)%float in
  mob <~ invoke KingMobility game kingPosition None
          (evaluateKingMobility game kingPosition) ;;
  let safetyScore :=
    (safetyScore + mobilityWeight * double_of_int mob)%float in
  opf <~ invoke OpenFiles game kingPosition (Some isWhite)
          (evaluateOpenFiles game kingPosition isWhite) ;;
  let safetyScore := (safetyScore + openFilesWeight * opf)%float in
  tret safetyScore.

End KingSafety.

(** ** Positions and collaborators for concrete evaluation

    The theorems below quantify over every engine answer and every
    collaborator.  To run the evaluation on a position, this part builds
    [Chess] values for positions holding only kings, knights and pawns (whose
    attacks need no line of sight), and two [stringToSquare] functions that
    differ on strings naming no square. *)

Definition placed : Type := square * pieceSymbol * color.

Definition ranks07 : list Z := [0; 1; 2; 3; 4; 5; 6; 7].

(** [Chess::board()]: eight rows of eight cells, a8 first. *)
Definition boardOf (pieces : list placed) : list (list squ) :=
  map (fun r =>
         map (fun f =>
                find (fun pc : placed => fst (fst pc) =? r * 8 + f) pieces)
             ranks07)
      ranks07.

(** Whether the piece [pc] attacks [sq]; row 0 is the eighth rank, so a
    white pawn attacks the row above it. *)
Definition attacks (pc : placed) (sq : square) : bool :=
  let '(s, ps, c) := pc in
  let dr := getRank sq - getRank s in
  let df := getFile sq - getFile s in
  match ps with
  | KING => (Z.abs dr <=? 1) && (Z.abs df <=? 1) && negb (s =? sq)
  | KNIGHT =>
      ((Z.abs dr =? 1) && (Z.abs df =? 2))
      || ((Z.abs dr =? 2) && (Z.abs df =? 1))
  | PAWN =>
      (dr =? match c with WHITE => -1 | BLACK => 1 end) && (Z.abs df =? 1)
  | BISHOP | ROOK | QUEEN => false
  end.

Definition attackersOf (pieces : list placed) (c : color) (sq : square)
    : list (option pieceSymbol) :=
  map (fun pc : placed => Some (snd (fst pc)))
      (filter (fun pc : placed => color_eqb (snd pc) c && attacks pc sq)
              pieces).

Definition squareName (sq : square) : string :=
  if (0 <=? sq) && (sq <? 64) then nth (Z.to_nat sq) SQUARES ""%string
  else ""%string.

(** A legal move with its notation fields left blank: only the mover, the
    squares and the piece matter to [Chess::moves]' filters. *)
Definition plainMove (c : color) (ps : pieceSymbol) (from to : square) : move :=
  {| move_color := c; move_from := from; move_to := to;
     move_piece := Some ps; move_captured := None; move_promotion := None;
     move_flags := ""; move_san := ""; move_lan := "";
     move_before := ""; move_after := "" |}.

(** [Chess::moves(sq, piece)]: the legal moves from [sq], of [piece]. *)
Definition movesOf (legal : list move) (sq : option string)
    (piece : option pieceSymbol) : list move :=
  filter (fun m =>
            match sq with
            | Some s => String.eqb s (squareName (move_from m))
            | None => true
            end
            && match piece, move_piece m with
               | Some x, Some y => pieceSymbol_eqb x y
               | Some _, None => false
               | None, _ => true
               end)
         legal.

Definition position (pieces : list placed) (toMove : color)
    (legal : list move) : Chess :=
  {| board := boardOf pieces;
     turn := toMove;
     isAttacked := fun sq c =>
       match attackersOf pieces c sq with [] => false | _ :: _ => true end;
     getAttackingPieces := attackersOf pieces;
     moves := movesOf legal |}.

(** 4k3/8/8/8/8/8/8/4K3 w: the two kings alone, White to move. *)
Definition twoKings : Chess :=
  position [ (e8, KING, BLACK); (e1, KING, WHITE) ] WHITE
    [ plainMove WHITE KING e1 d1; plainMove WHITE KING e1 d2;
      plainMove WHITE KING e1 e2; plainMove WHITE KING e1 f2;
      plainMove WHITE KING e1 f1 ].

(** 7k/8/8/8/8/8/PP6/KN6 w: the white king in the corner behind its own
    pawns and knight, White to move. *)
Definition corneredKing : Chess :=
  position
    [ (h8, KING, BLACK);
      (a2, PAWN, WHITE); (b2, PAWN, WHITE);
      (a1, KING, WHITE); (b1, KNIGHT, WHITE) ]
    WHITE
    [ plainMove WHITE KNIGHT b1 40; plainMove WHITE KNIGHT b1 42;
      plainMove WHITE KNIGHT b1 d2;
      plainMove WHITE PAWN a2 40; plainMove WHITE PAWN a2 32;
      plainMove WHITE PAWN b2 41; plainMove WHITE PAWN b2 33 ].

(** 7k/8/8/8/8/8/PP6/NN6 w: the same corner with a knight in the king's
    place; White, to move, has no king. *)
Definition noWhiteKing : Chess :=
  position
    [ (h8, KING, BLACK);
      (a2, PAWN, WHITE); (b2, PAWN, WHITE);
      (a1, KNIGHT, WHITE); (b1, KNIGHT, WHITE) ]
    WHITE
    [ plainMove WHITE KNIGHT a1 41; plainMove WHITE KNIGHT a1 50;
      plainMove WHITE KNIGHT b1 40; plainMove WHITE KNIGHT b1 42;
      plainMove WHITE KNIGHT b1 d2;
      plainMove WHITE PAWN a2 40; plainMove WHITE PAWN a2 32;
      plainMove WHITE PAWN b2 41; plainMove WHITE PAWN b2 33 ].

(** 4k3/8/8/8/8/4p3/8/4K3 w: a black pawn on e3 attacks d2 and f2, two
    neighbours of the white king; White to move. *)
Definition pawnNearKing : Chess :=
  position [ (e8, KING, BLACK); (e3, PAWN, BLACK); (e1, KING, WHITE) ] WHITE
    [ plainMove WHITE KING e1 d1; plainMove WHITE KING e1 e2;
      plainMove WHITE KING e1 f1 ].

(** 4k3/3ppp2/8/8/8/8/8/4K3 b: the black king behind three black pawns,
    Black to move; no white pawn is on the board. *)
Definition blackShield : Chess :=
  position
    [ (e8, KING, BLACK);
      (d7, PAWN, BLACK); (e7, PAWN, BLACK); (f7, PAWN, BLACK);
      (e1, KING, WHITE) ]
    BLACK
    [ plainMove BLACK KING e8 3; plainMove BLACK KING e8 5;
      plainMove BLACK PAWN d7 19; plainMove BLACK PAWN d7 27;
      plainMove BLACK PAWN e7 20; plainMove BLACK PAWN e7 28;
      plainMove BLACK PAWN f7 21; plainMove BLACK PAWN f7 29 ].

(** The position of a name in [SQUARES]. *)
Fixpoint indexOf (s : string) (table : list string) (i : Z) : option Z :=
  match table with
  | [] => None
  | t :: table' => if String.eqb s t then Some i else indexOf s table' (i + 1)
  end.

(** A [stringToSquare] that raises on a string naming no square. *)
Definition strictStringToSquare (s : string) : result square :=
  match indexOf s SQUARES 0 with
  | Some i => Ok i
  | None => Throw collaborator_error
  end.

(** A [stringToSquare] that answers 64, one past the table, on a string
    naming no square. *)
Definition lenientStringToSquare (s : string) : result square :=
  match indexOf s SQUARES 0 with
  | Some i => Ok i
  | None => Ok 64
  end.

(** Stand-ins for the two heuristics the repository does not define. *)
Definition constPositioning (_ : Chess) (_ : square) (_ : bool)
    : result float := Ok 1%float.

Definition constOpenFiles (_ : Chess) (_ : square) (_ : bool)
    : result float := Ok 2%float.

(** The side to move has a king on the board: the snapshot invariant that
    the king search of [evaluateKingSafety] relies on. *)
Definition isKingOf (isWhite : bool) (cell : squ) : bool :=
  match cell with
  | Some (_, ps, c) =>
      pieceSymbol_eqb ps KING
      && ((color_eqb c WHITE && isWhite) || (color_eqb c BLACK && negb isWhite))
  | None => false
  end.

Definition kingOnBoard (game : Chess) : bool :=
  existsb (existsb (isKingOf (color_eqb (turn game) WHITE))) (board game).

(** The squares 0..63. *)
Definition allSquares : list square := map Z.of_nat (seq 0 64).

Definition isCorner (sq : square) : bool :=
  ((getRank sq =? 0) || (getRank sq =? 7))
  && ((getFile sq =? 0) || (getFile sq =? 7)).

Definition isEdge (sq : square) : bool :=
  (getRank sq =? 0) || (getRank sq =? 7)
  || (getFile sq =? 0) || (getFile sq =? 7).

(** A neighbour of [sq] in the sense of the specification: on the board, one
    step away in rank and file, and not [sq] itself. *)
Definition isNeighbour (sq n : square) : bool :=
  (0 <=? n) && (n <=? 63)
  && (Z.abs (getRank n - getRank sq) <=? 1)
  && (Z.abs (getFile n - getFile sq) <=? 1)
  && negb (n =? sq).

(** No square occurs twice in [l]. *)
Fixpoint distinctSquares (l : list square) : bool :=
  match l with
  | [] => true
  | x :: l' => negb (existsb (Z.eqb x) l') && distinctSquares l'
  end.

(** The condition the specification counts in the exposed-king heuristic:
    [sq] holds a piece that is not of [currentColor], or [opponentSide]
    attacks [sq]. *)
Definition isExposed (game : Chess) (currentColor opponentSide : color)
    (sq : square) : bool :=
  match pieceOnSquare game sq with
  | Some (_, c) => negb (color_eqb c currentColor)
  | None => false
  end
  || isAttacked game sq opponentSide.

(** No cell of the board holds a white pawn. *)
Definition noWhitePawn (game : Chess) : bool :=
  forallb
    (forallb (fun cell : squ =>
                match cell with
                | Some (_, PAWN, WHITE) => false
                | _ => true
                end))
    (board game).

(** The squares recorded in the occupied cells of a row, and of a board. *)
Definition rowSquares (row : list squ) : list square :=
  flat_map (fun cell : squ =>
              match cell with
              | Some (s, _, _) => [s]
              | None => []
              end)
           row.

Definition cellSquares (rows : list (list squ)) : list square :=
  flat_map rowSquares rows.

(** The numbers of [l] increase strictly. *)
Fixpoint increasing (l : list Z) : bool :=
  match l with
  | [] => true
  | x :: l' =>
      match l' with
      | [] => true
      | y :: _ => (x <? y) && increasing l'
      end
  end.

(** The exception a computation ended with, if any. *)
Definition raised {A : Type} (r : result A) : option exn :=
  match r with
  | Ok _ => None
  | Throw e => Some e
  end.

(** The order in which [evaluateKingSafety] calls the heuristics. *)
Definition heuristicOrder : list heuristic :=
  [ PawnShield; ExposedKing; EnemyAttacks;
    KingPositioning; KingMobility; OpenFiles ].

Section Outcomes.

Variable squareToString : square -> string.
Variable stringToSquare : string -> result square.
Variable evaluatePositioning : Chess -> square -> bool -> result float.
Variable evaluateOpenFiles : Chess -> square -> bool -> result float.

(** What the heuristic [h] raises on [game], [kingPos] and [isWhite]. *)
Definition heuristicRaises (game : Chess) (kingPos : square) (isWhite : bool)
    (h : heuristic) : option exn :=
  match h with
  | PawnShield =>
      raised (evaluatePawnShield squareToString stringToSquare
                                 game kingPos isWhite)
  | ExposedKing => raised (evaluateExposedKing game kingPos isWhite)
  | EnemyAttacks => raised (evaluateEnemyAttacks game kingPos isWhite)
  | KingPositioning => raised (evaluatePositioning game kingPos isWhite)
  | KingMobility => raised (evaluateKingMobility squareToString game kingPos)
  | OpenFiles => raised (evaluateOpenFiles game kingPos isWhite)
  end.

End Outcomes.

(** A neighbour square whose attackers make [evaluateEnemyAttacks] read an
    empty optional: the square is attacked, its list of attackers starts
    with a piece and holds an empty entry further on. *)
Definition emptyAttacker (game : Chess) (opponentSide : color)
    (sq : square) : Prop :=
  noAttackers (getAttackingPieces game opponentSide sq) = false
  /\ isAttacked game sq opponentSide = true
  /\ In None (getAttackingPieces game opponentSide sq).

(** * Properties *)

(** ** Square geometry *)

Lemma createSquare_in_range (rank file : Z) :
  0 <= rank <= 7 -> 0 <= file <= 7 ->
  createSquare rank file = Some (rank * 8 + file).
Proof.
  intros Hr Hf. unfold createSquare.
  replace (0 <=? rank) with true by (symmetry; apply Z.leb_le; lia).
  replace (rank <? 8) with true by (symmetry; apply Z.ltb_lt; lia).
  replace (0 <=? file) with true by (symmetry; apply Z.leb_le; lia).
  replace (file <? 8) with true by (symmetry; apply Z.ltb_lt; lia).
  reflexivity.
Qed.

Lemma createSquare_out_of_range (rank file : Z) :
  rank < 0 \/ 7 < rank \/ file < 0 \/ 7 < file ->
  createSquare rank file = None.
Proof.
  intros H. unfold createSquare.
  destruct (Z.leb_spec 0 rank); simpl; [ | reflexivity ].
  destruct (Z.ltb_spec rank 8); simpl; [ | reflexivity ].
  destruct (Z.leb_spec 0 file); simpl; [ | reflexivity ].
  destruct (Z.ltb_spec file 8); simpl; [ | reflexivity ].
  lia.
Qed.

Lemma in_range_dec (rank file : Z) :
  (0 <= rank <= 7 /\ 0 <= file <= 7)
  \/ (rank < 0 \/ 7 < rank \/ file < 0 \/ 7 < file).
Proof. lia. Qed.

(** C7: for all integers [rank] and [file], [createSquare] fails (returns the
    empty optional, the specification's InvalidSquare) exactly when [rank] or
    [file] lies outside 0..7, and otherwise returns the square of index
    [rank * 8 + file]: no square comes out of an out-of-range input, and no
    failure out of an in-range one. *)
Theorem createSquare_fails_iff_out_of_range :
  forall rank file : Z,
    (createSquare rank file = None
     <-> (rank < 0 \/ 7 < rank \/ file < 0 \/ 7 < file))
    /\ (createSquare rank file = Some (rank * 8 + file)
        <-> (0 <= rank <= 7 /\ 0 <= file <= 7))
    /\ (forall sq, createSquare rank file = Some sq -> sq = rank * 8 + file).
Proof.
  intros rank file.
  destruct (in_range_dec rank file) as [[Hr Hf] | Hout].
  - rewrite (createSquare_in_range rank file Hr Hf).
    repeat split; try discriminate; try lia; try congruence.
  - rewrite (createSquare_out_of_range rank file Hout).
    repeat split; try discriminate; try lia; auto.
Qed.

Lemma getRank_getFile_bounds (sq : square) :
  0 <= sq <= 63 ->
  0 <= getRank sq <= 7 /\ 0 <= getFile sq <= 7
  /\ getRank sq * 8 + getFile sq = sq.
Proof.
  intros H. unfold getRank, getFile.
  rewrite Z.quot_div_nonneg, Z.rem_mod_nonneg by lia.
  pose proof (Z.div_mod sq 8 ltac:(lia)).
  pose proof (Z.mod_pos_bound sq 8 ltac:(lia)).
  lia.
Qed.

Lemma getRank_getFile_of_index (rank file : Z) :
  0 <= rank <= 7 -> 0 <= file <= 7 ->
  getRank (rank * 8 + file) = rank /\ getFile (rank * 8 + file) = file.
Proof.
  intros Hr Hf. unfold getRank, getFile.
  rewrite Z.quot_div_nonneg, Z.rem_mod_nonneg by lia.
  split.
  - symmetry. apply (Z.div_unique_pos _ _ rank file); lia.
  - symmetry. apply (Z.mod_unique_pos _ _ rank file); lia.
Qed.

(** C10: decomposition into rank and file and square construction are
    inverse to each other: a square of index 0..63 is rebuilt from its rank
    and file, and the square built from a rank and a file in 0..7 has that
    rank and that file. *)
Theorem createSquare_getRank_getFile_inverse :
  (forall sq : square,
      0 <= sq <= 63 ->
      createSquare (getRank sq) (getFile sq) = Some sq)
  /\ (forall rank file : Z,
         0 <= rank <= 7 -> 0 <= file <= 7 ->
         exists sq : square,
           createSquare rank file = Some sq
           /\ getRank sq = rank /\ getFile sq = file).
Proof.
  split.
  - intros sq H.
    destruct (getRank_getFile_bounds sq H) as (Hr & Hf & Heq).
    rewrite (createSquare_in_range _ _ Hr Hf). now rewrite Heq.
  - intros rank file Hr Hf. exists (rank * 8 + file).
    split; [ now apply createSquare_in_range | ].
    now apply getRank_getFile_of_index.
Qed.

Lemma createSquare_getRank_getFile_inverse_witness :
  createSquare (getRank e1) (getFile e1) = Some e1
  /\ exists sq : square,
       createSquare 7 4 = Some sq /\ getRank sq = 7 /\ getFile sq = 4.
Proof.
  split.
  - apply (proj1 createSquare_getRank_getFile_inverse e1). unfold e1. lia.
  - apply (proj2 createSquare_getRank_getFile_inverse 7 4); lia.
Defined.

Lemma allSquares_complete (sq : square) : 0 <= sq <= 63 -> In sq allSquares.
Proof.
  intros H. unfold allSquares. apply in_map_iff.
  exists (Z.to_nat sq). split; [ lia | ]. apply in_seq. lia.
Qed.

Lemma on_allSquares (P : square -> bool) :
  forallb P allSquares = true ->
  forall sq, 0 <= sq <= 63 -> P sq = true.
Proof.
  intros HP sq H. rewrite forallb_forall in HP.
  apply HP, allSquares_complete, H.
Qed.

Lemma distinctSquares_NoDup (l : list square) :
  distinctSquares l = true -> NoDup l.
Proof.
  induction l as [ | x l IH ]; simpl; intros H.
  - constructor.
  - apply andb_prop in H. destruct H as [Hx Hl].
    constructor; [ | now apply IH ].
    intros Hin. apply negb_true_iff in Hx.
    assert (existsb (Z.eqb x) l = true) as E.
    { apply existsb_exists. exists x. split; [ exact Hin | apply Z.eqb_refl ]. }
    congruence.
Qed.

(** C6: for a square of index 0..63, [getSurroundingSquares] returns only
    squares whose rank and file are in 0..7 and at most one step from the
    square's own (the square itself left out), it returns every such square
    once, and their number is 3 on a corner, 5 on an edge square that is not
    a corner, and 8 on an interior square. *)
Theorem getSurroundingSquares_neighbours :
  forall sq : square,
    0 <= sq <= 63 ->
    (forall n, In n (getSurroundingSquares sq) ->
               0 <= getRank n <= 7 /\ 0 <= getFile n <= 7
               /\ 0 <= n <= 63
               /\ Z.abs (getRank n - getRank sq) <= 1
               /\ Z.abs (getFile n - getFile sq) <= 1
               /\ n <> sq)
    /\ (forall n, 0 <= n <= 63 ->
                  Z.abs (getRank n - getRank sq) <= 1 ->
                  Z.abs (getFile n - getFile sq) <= 1 ->
                  n <> sq ->
                  In n (getSurroundingSquares sq))
    /\ NoDup (getSurroundingSquares sq)
    /\ List.length (getSurroundingSquares sq)
       = (if isCorner sq then 3 else if isEdge sq then 5 else 8)%nat.
Proof.
  intros sq Hsq.
  assert (Hsound :
    forallb (fun s => forallb (isNeighbour s) (getSurroundingSquares s))
            allSquares = true) by (vm_compute; reflexivity).
  assert (Hcomplete :
    forallb (fun s =>
               forallb (fun n => implb (isNeighbour s n)
                                   (existsb (Z.eqb n) (getSurroundingSquares s)))
                       allSquares)
            allSquares = true) by (vm_compute; reflexivity).
  assert (Hnodup :
    forallb (fun s => distinctSquares (getSurroundingSquares s))
            allSquares = true) by (vm_compute; reflexivity).
  assert (Hcount :
    forallb (fun s =>
               Nat.eqb (List.length (getSurroundingSquares s))
                       (if isCorner s then 3 else if isEdge s then 5 else 8))
            allSquares = true) by (vm_compute; reflexivity).
  split; [ | split; [ | split ] ].
  - intros n Hin.
    pose proof (on_allSquares _ Hsound sq Hsq) as Hs; cbv beta in Hs.
    rewrite forallb_forall in Hs. specialize (Hs n Hin).
    unfold isNeighbour in Hs.
    repeat (apply andb_prop in Hs; destruct Hs as [Hs ?]).
    repeat match goal with
           | HH : (_ <=? _) = true |- _ => apply Z.leb_le in HH
           | HH : negb (_ =? _) = true |- _ =>
               apply negb_true_iff, Z.eqb_neq in HH
           end.
    pose proof (getRank_getFile_bounds n ltac:(lia)). lia.
  - intros n Hn Hr Hf Hne.
    pose proof (on_allSquares _ Hcomplete sq Hsq) as Hc; cbv beta in Hc.
    pose proof (on_allSquares _ Hc n Hn) as Hc'; cbv beta in Hc'.
    assert (Hnb : isNeighbour sq n = true).
    { unfold isNeighbour. repeat (apply andb_true_intro; split).
      all: try (apply Z.leb_le; lia).
      apply negb_true_iff, Z.eqb_neq. exact Hne. }
    rewrite Hnb in Hc'. simpl in Hc'.
    apply existsb_exists in Hc'. destruct Hc' as (m & Hin & Heq).
    apply Z.eqb_eq in Heq. now subst m.
  - apply distinctSquares_NoDup. exact (on_allSquares _ Hnodup sq Hsq).
  - apply Nat.eqb_eq. exact (on_allSquares _ Hcount sq Hsq).
Qed.

Lemma getSurroundingSquares_neighbours_witness :
  List.length (getSurroundingSquares a1) = 3%nat
  /\ List.length (getSurroundingSquares e1) = 5%nat
  /\ List.length (getSurroundingSquares e2) = 8%nat.
Proof.
  split; [ | split ].
  - apply (getSurroundingSquares_neighbours a1). unfold a1. lia.
  - apply (getSurroundingSquares_neighbours e1). unfold e1. lia.
  - apply (getSurroundingSquares_neighbours e2). unfold e2. lia.
Defined.

(** ** Piece lookup *)

Lemma pieceOnSquare_row_In (row : list squ) (sq : square)
    (ps : pieceSymbol) (c : color) :
  pieceOnSquare_row row sq = Some (ps, c) -> In (Some (sq, ps, c)) row.
Proof.
  induction row as [ | cell row IH ]; simpl; [ discriminate | ].
  destruct cell as [ [[s ps'] c'] | ].
  - destruct (Z.eqb_spec s sq) as [ -> | _ ].
    + intros E. injection E as -> ->. now left.
    + intros E. right. now apply IH.
  - intros E. right. now apply IH.
Qed.

Lemma pieceOnSquare_In (game : Chess) (sq : square)
    (ps : pieceSymbol) (c : color) :
  pieceOnSquare game sq = Some (ps, c) ->
  exists row, In row (board game) /\ In (Some (sq, ps, c)) row.
Proof.
  unfold pieceOnSquare. induction (board game) as [ | row rows IH ]; simpl.
  - discriminate.
  - destruct (pieceOnSquare_row row sq) as [ found | ] eqn:E.
    + intros F. injection F as ->. exists row. split; [ now left | ].
      now apply pieceOnSquare_row_In.
    + intros F. destruct (IH F) as (r & Hr & Hin).
      exists r. split; [ now right | exact Hin ].
Qed.

Lemma noWhitePawn_lookup (game : Chess) (sq : square) :
  noWhitePawn game = true ->
  optional_pair_eqb (pieceOnSquare game sq) (PAWN, WHITE) = false.
Proof.
  intros H. destruct (pieceOnSquare game sq) as [ [ps c] | ] eqn:E;
    [ | reflexivity ].
  destruct (pieceOnSquare_In game sq ps c E) as (row & Hrow & Hcell).
  unfold noWhitePawn in H. rewrite forallb_forall in H.
  specialize (H row Hrow). rewrite forallb_forall in H.
  specialize (H _ Hcell). simpl in H.
  destruct ps, c; simpl; try reflexivity; discriminate.
Qed.

(** ** The exposed-king heuristic *)

Section ExposedKing.

Variable game : Chess.
Variables currentColor opponentSide : color.

Lemma occupied_or_empty (l : list square) :
  (forall sq, In sq l -> pieceOnSquare game sq <> None)
  \/ (exists sq, In sq l /\ pieceOnSquare game sq = None).
Proof.
  induction l as [ | x l [ IH | (sq & Hin & Hsq) ] ].
  - left. intros sq [].
  - destruct (pieceOnSquare game x) eqn:E.
    + left. intros sq [ <- | Hin ]; [ congruence | now apply IH ].
    + right. exists x. split; [ now left | exact E ].
  - right. exists sq. split; [ now right | exact Hsq ].
Qed.

Lemma exposedLoop_occupied (l : list square) :
  (forall sq, In sq l -> pieceOnSquare game sq <> None) ->
  forall exposedPenalty,
    exposedLoop game currentColor opponentSide l exposedPenalty
    = Ok (exposedPenalty
          + Z.of_nat
              (List.length
                 (filter (isExposed game currentColor opponentSide) l))).
Proof.
  induction l as [ | x l IH ]; intros Hocc acc.
  - simpl. f_equal. lia.
  - assert (Hl : forall sq, In sq l -> pieceOnSquare game sq <> None)
      by (intros sq Hin; apply Hocc; now right).
    specialize (IH Hl).
    assert (Hx : pieceOnSquare game x <> None) by (apply Hocc; now left).
    simpl. unfold isExposed.
    destruct (pieceOnSquare game x) as [ [ps c] | ]; [ | congruence ].
    simpl.
    destruct (negb (color_eqb c currentColor) || isAttacked game x opponentSide).
    + rewrite IH. unfold isExposed. simpl List.length. f_equal. lia.
    + rewrite IH. reflexivity.
Qed.

Lemma exposedLoop_empty (l : list square) :
  (exists sq, In sq l /\ pieceOnSquare game sq = None) ->
  forall exposedPenalty,
    exposedLoop game currentColor opponentSide l exposedPenalty
    = Throw bad_optional_access.
Proof.
  induction l as [ | x l IH ]; intros (sq & Hin & Hsq) acc.
  - destruct Hin.
  - simpl. destruct (pieceOnSquare game x) as [ [ps c] | ] eqn:E.
    + assert (Hl : exists sq, In sq l /\ pieceOnSquare game sq = None).
      { destruct Hin as [ <- | Hin ]; [ congruence | ].
        exists sq. now split. }
      simpl.
      destruct (negb (color_eqb c currentColor)
                || isAttacked game x opponentSide); now apply IH.
    + reflexivity.
Qed.

End ExposedKing.

Lemma surroundingLoop_length (rank file : Z) (offs : list (Z * Z)) :
  forall surrounding,
    (List.length (surroundingLoop rank file offs surrounding)
     <= List.length surrounding + List.length offs)%nat.
Proof.
  induction offs as [ | o offs IH ]; intros acc; simpl.
  - lia.
  - destruct (createSquare (rank + fst o) (file + snd o)).
    + specialize (IH (acc ++ [s])). rewrite length_app in IH. simpl in IH. lia.
    + specialize (IH acc). lia.
Qed.

Lemma getSurroundingSquares_at_most_8 (sq : square) :
  (List.length (getSurroundingSquares sq) <= 8)%nat.
Proof.
  unfold getSurroundingSquares.
  pose proof (surroundingLoop_length (getRank sq) (getFile sq) offsets []) as H.
  simpl in H. exact H.
Qed.

(** On a position where every neighbour of the king holds a piece,
    [evaluateExposedKing] does return the count the specification describes,
    a number between 0 and 8. *)
Lemma evaluateExposedKing_occupied_neighbours (game : Chess)
    (kingPos : square) (isWhite : bool) :
  (forall sq, In sq (getSurroundingSquares kingPos) ->
              pieceOnSquare game sq <> None) ->
  exists n,
    evaluateExposedKing game kingPos isWhite = Ok n
    /\ n = Z.of_nat
             (List.length
                (filter (isExposed game (if isWhite then WHITE else BLACK)
                                   (if isWhite then BLACK else WHITE))
                        (getSurroundingSquares kingPos)))
    /\ 0 <= n <= 8.
Proof.
  intros Hocc. unfold evaluateExposedKing.
  rewrite (exposedLoop_occupied _ _ _ _ Hocc).
  eexists. split; [ reflexivity | ].
  assert (Hside : (if color_eqb (if isWhite then WHITE else BLACK) WHITE
                   then BLACK else WHITE)
                  = (if isWhite then BLACK else WHITE))
    by (destruct isWhite; reflexivity).
  rewrite Hside. split; [ reflexivity | ].
  pose proof (getSurroundingSquares_at_most_8 kingPos).
  pose proof (filter_length_le
                (isExposed game (if isWhite then WHITE else BLACK)
                           (if isWhite then BLACK else WHITE))
                (getSurroundingSquares kingPos)).
  lia.
Qed.

(** C9: [evaluateExposedKing] reads the piece of every neighbour square
    through an unguarded [optional::value]: it raises
    [std::bad_optional_access] exactly when some neighbour square of the king
    is empty, and it returns a count exactly when every neighbour square
    holds a piece. *)
Theorem evaluateExposedKing_throws_iff_empty_neighbour :
  forall (game : Chess) (kingPos : square) (isWhite : bool),
    (evaluateExposedKing game kingPos isWhite = Throw bad_optional_access
     <-> exists sq, In sq (getSurroundingSquares kingPos)
                    /\ pieceOnSquare game sq = None)
    /\ ((exists n, evaluateExposedKing game kingPos isWhite = Ok n)
        <-> forall sq, In sq (getSurroundingSquares kingPos) ->
                       pieceOnSquare game sq <> None).
Proof.
  intros game kingPos isWhite.
  destruct (occupied_or_empty game (getSurroundingSquares kingPos))
    as [ Hocc | Hempty ].
  - destruct (evaluateExposedKing_occupied_neighbours game kingPos isWhite Hocc)
      as (n & Hn & _).
    split; split.
    + rewrite Hn. discriminate.
    + intros (sq & Hin & Hsq). now apply Hocc in Hin.
    + intros _. exact Hocc.
    + intros _. now exists n.
  - assert (Hthrow : evaluateExposedKing game kingPos isWhite
                     = Throw bad_optional_access)
      by (unfold evaluateExposedKing; now apply exposedLoop_empty).
    split; split.
    + intros _. exact Hempty.
    + intros _. exact Hthrow.
    + intros (n & Hn). rewrite Hthrow in Hn. discriminate.
    + intros Hocc. destruct Hempty as (sq & Hin & Hsq).
      now apply Hocc in Hin.
Qed.

(** C5, on the two kings alone: no neighbour of the white king on e1 holds
    an enemy piece or is attacked by Black, so the count the specification
    describes is 0; [evaluateExposedKing] raises [std::bad_optional_access]
    on the first (empty) neighbour instead of returning it. *)
Theorem evaluateExposedKing_twoKings_throws :
  evaluateExposedKing twoKings e1 true = Throw bad_optional_access
  /\ filter (isExposed twoKings WHITE BLACK) (getSurroundingSquares e1) = []
  /\ pieceOnSquare twoKings d2 = None.
Proof. vm_compute. repeat split. Qed.

(** ** The enemy-attacks heuristic *)

(** [getPieceValue] never raises, and [getPieceValue(p) / 10], a division of
    [int]s, is 0 for every piece but the king. *)
Lemma getPieceValue_quot_10 (p : pieceSymbol) :
  exists v,
    getPieceValue p = Ok v
    /\ Z.quot v 10 = (if pieceSymbol_eqb p KING then 20 else 0).
Proof. destruct p; eexists; split; reflexivity. Qed.

(** C3, with a black pawn on e3 next to the white king on e1: Black attacks
    the neighbour squares d2 and f2, each by one pawn, so the specification's
    sum is 0.1 + 0.1; [evaluateEnemyAttacks] adds [1 / 10 = 0] twice and
    returns 0. *)
Theorem evaluateEnemyAttacks_pawn_counts_zero :
  evaluateEnemyAttacks pawnNearKing e1 true = Ok 0%float
  /\ getSurroundingSquares e1 = [d2; e2; f2; d1; f1]
  /\ map (getAttackingPieces pawnNearKing BLACK) (getSurroundingSquares e1)
     = [ [Some PAWN]; []; [Some PAWN]; []; [] ]
  /\ map (fun sq => isAttacked pawnNearKing sq BLACK)
         (getSurroundingSquares e1)
     = [ true; false; true; false; false ]
  /\ getPieceValue PAWN = Ok 1
  /\ Z.quot 1 10 = 0.
Proof. vm_compute. repeat split. Qed.

(** ** The pawn-shield heuristic *)

Lemma shieldLoop_noWhitePawn (game : Chess) (shieldSquares : list square) :
  noWhitePawn game = true ->
  forall shieldBonus, shieldLoop game shieldSquares shieldBonus = shieldBonus.
Proof.
  intros H. induction shieldSquares as [ | sq rest IH ]; intros acc; simpl.
  - reflexivity.
  - rewrite (noWhitePawn_lookup game sq H). apply IH.
Qed.

(** [evaluatePawnShield] compares each looked-up piece with a white pawn,
    whatever the side: on a board without white pawns it returns 0 or
    raises what [stringToSquare] raises. *)
Lemma evaluatePawnShield_noWhitePawn
    (squareToString : square -> string)
    (stringToSquare : string -> result square)
    (game : Chess) (kingPos : square) (isWhite : bool) :
  noWhitePawn game = true ->
  evaluatePawnShield squareToString stringToSquare game kingPos isWhite = Ok 0
  \/ exists e,
       evaluatePawnShield squareToString stringToSquare game kingPos isWhite
       = Throw e.
Proof.
  intros H. unfold evaluatePawnShield.
  destruct (stringToSquare _) as [ s1 | e1' ]; simpl; [ | right; now eexists ].
  destruct (stringToSquare _) as [ s2 | e2' ]; simpl; [ | right; now eexists ].
  destruct (stringToSquare _) as [ s3 | e3' ]; simpl; [ | right; now eexists ].
  left. f_equal.
  exact (shieldLoop_noWhitePawn game [s1; s2; s3] H 0).
Qed.

(** With the squares named as in [SQUARES] and a [stringToSquare] that
    raises on a string naming no square, [evaluatePawnShield] raises for
    every king square and either side: the strings it builds are decimal
    character codes. *)
Lemma evaluatePawnShield_strict_raises (game : Chess) (kingPos : square)
    (isWhite : bool) :
  0 <= kingPos <= 63 ->
  evaluatePawnShield squareName strictStringToSquare game kingPos isWhite
  = Throw collaborator_error.
Proof.
  intros H. unfold evaluatePawnShield.
  assert (Hall :
    forallb (fun sq =>
               forallb (fun direction =>
                          match strictStringToSquare
                                  (to_string (char_at (squareName sq) 1
                                              + direction)
                                   ++ to_string (char_at (squareName sq) 0 - 1))
                          with
                          | Throw collaborator_error => true
                          | _ => false
                          end)
                       [1; -1])
            allSquares = true) by (vm_compute; reflexivity).
  pose proof (on_allSquares _ Hall kingPos H) as Hk. cbv beta in Hk.
  rewrite forallb_forall in Hk.
  destruct isWhite.
  - specialize (Hk 1 (or_introl eq_refl)).
    destruct (strictStringToSquare
                (to_string (char_at (squareName kingPos) 1 + 1)
                 ++ to_string (char_at (squareName kingPos) 0 - 1)))
      as [ s | e ]; [ discriminate Hk | ].
    destruct e; try discriminate Hk. reflexivity.
  - specialize (Hk (-1) (or_intror (or_introl eq_refl))).
    destruct (strictStringToSquare
                (to_string (char_at (squareName kingPos) 1 + -1)
                 ++ to_string (char_at (squareName kingPos) 0 - 1)))
      as [ s | e ]; [ discriminate Hk | ].
    destruct e; try discriminate Hk. reflexivity.
Qed.

(** C2, on two positions.  Black king on e8 behind black pawns on d7, e7
    and f7, Black to evaluate: the specification's count is 3, and for every
    [squareToString] and [stringToSquare] the code returns 0 or raises,
    because it looks for white pawns.  White king on a1 behind white pawns
    on a2 and b2: with the squares named as in [SQUARES], the code hands
    [stringToSquare] the digit strings 5096, 5097 and 5098, which name no
    square, and returns 0 or raises where the specification's count is 2. *)
Theorem evaluatePawnShield_misses_shield_pawns :
  (forall (squareToString : square -> string)
          (stringToSquare : string -> result square),
      evaluatePawnShield squareToString stringToSquare blackShield e8 false
      = Ok 0
      \/ exists e,
           evaluatePawnShield squareToString stringToSquare blackShield e8
                              false
           = Throw e)
  /\ map (pieceOnSquare blackShield) [d7; e7; f7]
     = [ Some (PAWN, BLACK); Some (PAWN, BLACK); Some (PAWN, BLACK) ]
  /\ (forall (stringToSquare : string -> result square),
         evaluatePawnShield squareName stringToSquare corneredKing a1 true
         = (s1 <- stringToSquare "5096"%string ;;
            s2 <- stringToSquare "5097"%string ;;
            s3 <- stringToSquare "5098"%string ;;
            Ok (shieldLoop corneredKing [s1; s2; s3] 0)))
  /\ evaluatePawnShield squareName lenientStringToSquare corneredKing a1 true
     = Ok 0
  /\ evaluatePawnShield squareName strictStringToSquare corneredKing a1 true
     = Throw collaborator_error
  /\ map (pieceOnSquare corneredKing) [a2; b2]
     = [ Some (PAWN, WHITE); Some (PAWN, WHITE) ].
Proof.
  split.
  { intros sq2s s2sq. apply evaluatePawnShield_noWhitePawn.
    vm_compute. reflexivity. }
  split; [ vm_compute; reflexivity | ].
  split; [ intros s2sq; reflexivity | ].
  vm_compute. repeat split.
Qed.

(** ** The king search *)

Lemma kingRowLoop_no_king (row : list squ) (isWhite : bool) (u : square) :
  existsb (isKingOf isWhite) row = false -> kingRowLoop row isWhite u = u.
Proof.
  induction row as [ | cell row IH ]; simpl; [ reflexivity | ].
  intros H. apply orb_false_elim in H. destruct H as [Hcell Hrow].
  destruct cell as [ [[s ps] c] | ]; [ | now apply IH ].
  simpl in Hcell.
  destruct (pieceSymbol_eqb ps KING); simpl in *; [ | now apply IH ].
  apply orb_false_elim in Hcell. destruct Hcell as [Hw Hb].
  rewrite Hw, Hb. now apply IH.
Qed.

Lemma kingRowLoop_king (row : list squ) (isWhite : bool) :
  existsb (isKingOf isWhite) row = true ->
  exists s c,
    In (Some (s, KING, c)) row
    /\ color_eqb c WHITE = isWhite
    /\ forall u, kingRowLoop row isWhite u = s.
Proof.
  induction row as [ | cell row IH ]; simpl; [ discriminate | ].
  intros H.
  assert (Hrest :
    existsb (isKingOf isWhite) row = true ->
    exists s c, In (Some (s, KING, c)) (cell :: row)
                /\ color_eqb c WHITE = isWhite
                /\ forall u, match cell with
                             | Some _ => kingRowLoop row isWhite u
                             | None => kingRowLoop row isWhite u
                             end = s).
  { intros Hr. destruct (IH Hr) as (s & c & Hin & Hc & Hs).
    exists s, c. repeat split; [ now right | exact Hc | ].
    intros u. destruct cell; apply Hs. }
  destruct cell as [ [[s ps] c] | ].
  - destruct ps; simpl in H |- *;
      try (destruct (Hrest H) as (s' & c' & Hin & Hc & Hs);
           exists s', c'; repeat split; assumption).
    destruct c, isWhite; simpl in H |- *;
      try (destruct (Hrest H) as (s' & c' & Hin & Hc & Hs);
           exists s', c'; repeat split; assumption).
    + exists s, WHITE. repeat split. now left.
    + exists s, BLACK. repeat split. now left.
  - simpl in H. destruct (Hrest H) as (s' & c' & Hin & Hc & Hs).
    exists s', c'. repeat split; assumption.
Qed.

Lemma kingBoardLoop_no_king (rows : list (list squ)) (isWhite : bool) :
  existsb (existsb (isKingOf isWhite)) rows = false ->
  forall u, kingBoardLoop rows isWhite u = u.
Proof.
  induction rows as [ | row rows IH ]; simpl; [ reflexivity | ].
  intros H u. apply orb_false_elim in H. destruct H as [Hrow Hrows].
  rewrite (kingRowLoop_no_king row isWhite u Hrow). now apply IH.
Qed.

(** When the side has a king on the board, the search ends on the square
    of one of its kings, whatever [kingPosition] held before. *)
Lemma kingBoardLoop_king (rows : list (list squ)) (isWhite : bool) :
  existsb (existsb (isKingOf isWhite)) rows = true ->
  exists row s c,
    In row rows /\ In (Some (s, KING, c)) row
    /\ color_eqb c WHITE = isWhite
    /\ forall u, kingBoardLoop rows isWhite u = s.
Proof.
  induction rows as [ | row rows IH ]; simpl; [ discriminate | ].
  intros H.
  destruct (existsb (existsb (isKingOf isWhite)) rows) eqn:Hrows.
  - destruct (IH eq_refl) as (r & s & c & Hr & Hin & Hc & Hs).
    exists r, s, c. repeat split; [ now right | exact Hin | exact Hc | ].
    intros u. apply Hs.
  - rewrite orb_false_r in H.
    destruct (kingRowLoop_king row isWhite H) as (s & c & Hin & Hc & Hs).
    exists row, s, c. repeat split; [ now left | exact Hin | exact Hc | ].
    intros u. rewrite Hs. now apply kingBoardLoop_no_king.
Qed.

Lemma color_eqb_WHITE_inj (c d : color) :
  color_eqb c WHITE = color_eqb d WHITE -> c = d.
Proof. destruct c, d; simpl; congruence. Qed.

(** ** The aggregate score *)

Section Aggregate.

Variable squareToString : square -> string.
Variable stringToSquare : string -> result square.
Variable evaluatePositioning : Chess -> square -> bool -> result float.
Variable evaluateOpenFiles : Chess -> square -> bool -> result float.

Local Notation "'evaluate'" :=
  (evaluateKingSafety squareToString stringToSquare
                      evaluatePositioning evaluateOpenFiles) (only parsing).

Lemma kingPosition_on_board (game : Chess) (u : square) :
  kingOnBoard game = true ->
  exists row,
    In row (board game)
    /\ In (Some (kingBoardLoop (board game) (color_eqb (turn game) WHITE) u,
                 KING, turn game))
          row.
Proof.
  intros H.
  destruct (kingBoardLoop_king (board game) _ H)
    as (row & s & c & Hrow & Hin & Hc & Hs).
  exists row. split; [ exact Hrow | ].
  rewrite Hs. now rewrite <- (color_eqb_WHITE_inj _ _ Hc).
Qed.

(** C1, as the code has it: whenever [evaluateKingSafety] returns a Score,
    it has called each of the six heuristics exactly once, in the order
    pawn shield, exposed king, enemy attacks, positioning, mobility, open
    files, each on the game and the square the king search ended on (the
    square of a king of the side to move when there is one), the mobility
    heuristic without the side and the five others with it; and the Score is
    the sum, accumulated from 0 in that order, of 1.0 * pawnShield,
    -0.5 * exposedKing, -0.2 * enemyAttacks, -0.8 * kingPositioning,
    0.1 * mobility and -1.0 * openFiles, with no other term. *)
Theorem evaluateKingSafety_score_is_weighted_sum :
  forall (u : square) (game : Chess) (score : float),
    snd (evaluate u game) = Ok score ->
    exists (kingPosition : square) (ps ek mob : Z) (ea kp opf : float),
      kingPosition
      = kingBoardLoop (board game) (color_eqb (turn game) WHITE) u
      /\ (kingOnBoard game = true ->
          exists row, In row (board game)
                      /\ In (Some (kingPosition, KING, turn game)) row)
      /\ evaluatePawnShield squareToString stringToSquare game kingPosition
           (color_eqb (turn game) WHITE) = Ok ps
      /\ evaluateExposedKing game kingPosition (color_eqb (turn game) WHITE)
         = Ok ek
      /\ evaluateEnemyAttacks game kingPosition (color_eqb (turn game) WHITE)
         = Ok ea
      /\ evaluatePositioning game kingPosition (color_eqb (turn game) WHITE)
         = Ok kp
      /\ evaluateKingMobility squareToString game kingPosition = Ok mob
      /\ evaluateOpenFiles game kingPosition (color_eqb (turn game) WHITE)
         = Ok opf
      /\ fst (evaluate u game)
         = [ {| callee := PawnShield; gameArg := game;
                kingPosArg := kingPosition;
                isWhiteArg := Some (color_eqb (turn game) WHITE) |};
             {| callee := ExposedKing; gameArg := game;
                kingPosArg := kingPosition;
                isWhiteArg := Some (color_eqb (turn game) WHITE) |};
             {| callee := EnemyAttacks; gameArg := game;
                kingPosArg := kingPosition;
                isWhiteArg := Some (color_eqb (turn game) WHITE) |};
             {| callee := KingPositioning; gameArg := game;
                kingPosArg := kingPosition;
                isWhiteArg := Some (color_eqb (turn game) WHITE) |};
             {| callee := KingMobility; gameArg := game;
                kingPosArg := kingPosition; isWhiteArg := None |};
             {| callee := OpenFiles; gameArg := game;
                kingPosArg := kingPosition;
                isWhiteArg := Some (color_eqb (turn game) WHITE) |} ]
      /\ score
         = (0 + 1.0 * double_of_int ps + (-0.5) * double_of_int ek
            + (-0.2) * ea + (-0.8) * kp + 0.1 * double_of_int mob
            + (-1.0) * opf)%float.
Proof.
  intros u game score. unfold evaluateKingSafety, invoke, tbind, tret.
  set (isWhite := color_eqb (turn game) WHITE).
  set (k := kingBoardLoop (board game) isWhite u).
  destruct (evaluatePawnShield _ _ game k isWhite) as [ ps | ] eqn:Hps;
    [ | discriminate ].
  destruct (evaluateExposedKing game k isWhite) as [ ek | ] eqn:Hek;
    [ | discriminate ].
  destruct (evaluateEnemyAttacks game k isWhite) as [ ea | ] eqn:Hea;
    [ | discriminate ].
  destruct (evaluatePositioning game k isWhite) as [ kp | ] eqn:Hkp;
    [ | discriminate ].
  destruct (evaluateKingMobility _ game k) as [ mob | ] eqn:Hmob;
    [ | discriminate ].
  destruct (evaluateOpenFiles game k isWhite) as [ opf | ] eqn:Hopf;
    [ | discriminate ].
  simpl. intros E. injection E as <-.
  exists k, ps, ek, mob, ea, kp, opf.
  split; [ reflexivity | ].
  split; [ intros H; exact (kingPosition_on_board game u H) | ].
  split; [ exact Hps | ]. split; [ exact Hek | ]. split; [ exact Hea | ].
  split; [ exact Hkp | ]. split; [ exact Hmob | ]. split; [ exact Hopf | ].
  split; reflexivity.
Qed.

(** X18: on a snapshot where the side to move has a king, two calls of
    [evaluateKingSafety] give the same record of calls and the same result,
    whatever the local [kingPosition] held at the start of each call: there
    the evaluation is a function of the snapshot (and of its collaborators'
    answers) alone. *)
Theorem evaluateKingSafety_deterministic :
  forall (game : Chess),
    kingOnBoard game = true ->
    forall u1 u2 : square, evaluate u1 game = evaluate u2 game.
Proof.
  intros game H u1 u2.
  destruct (kingBoardLoop_king (board game) _ H)
    as (row & s & c & _ & _ & _ & Hs).
  unfold evaluateKingSafety. now rewrite (Hs u1), (Hs u2).
Qed.

End Aggregate.

Lemma evaluateKingSafety_score_is_weighted_sum_witness :
  exists (kingPosition : square) (ps ek mob : Z) (ea kp opf : float),
    kingPosition = a1 /\ ps = 0 /\ ek = 0 /\ mob = 0
    /\ ea = 0%float /\ kp = 1%float /\ opf = 2%float
    /\ snd (evaluateKingSafety squareName lenientStringToSquare
              constPositioning constOpenFiles a8 corneredKing)
       = Ok (0 + 1.0 * double_of_int ps + (-0.5) * double_of_int ek
             + (-0.2) * ea + (-0.8) * kp + 0.1 * double_of_int mob
             + (-1.0) * opf)%float.
Proof.
  destruct (evaluateKingSafety_score_is_weighted_sum
              squareName lenientStringToSquare constPositioning constOpenFiles
              a8 corneredKing
              (0 + 1.0 * 0 + (-0.5) * 0 + (-0.2) * 0 + (-0.8) * 1 + 0.1 * 0
               + (-1.0) * 2)%float
              ltac:(vm_compute; reflexivity))
    as (k & ps & ek & mob & ea & kp & opf
        & Hk & _ & Hps & Hek & Hea & Hkp & Hmob & Hopf & _ & Hscore).
  exists k, ps, ek, mob, ea, kp, opf.
  assert (Ek : k = a1) by (rewrite Hk; vm_compute; reflexivity).
  rewrite Ek in Hps, Hek, Hea, Hkp, Hmob, Hopf.
  vm_compute in Hps, Hek, Hea, Hkp, Hmob, Hopf.
  injection Hps as <-. injection Hek as <-. injection Hea as <-.
  injection Hkp as <-. injection Hmob as <-. injection Hopf as <-.
  repeat (split; [ first [ exact Ek | reflexivity ] | ]).
  vm_compute. reflexivity.
Defined.

Lemma evaluateKingSafety_deterministic_witness :
  kingOnBoard corneredKing = true
  /\ evaluateKingSafety squareName lenientStringToSquare
       constPositioning constOpenFiles a8 corneredKing
     = evaluateKingSafety squareName lenientStringToSquare
         constPositioning constOpenFiles h1 corneredKing.
Proof.
  split; [ reflexivity | ].
  apply (evaluateKingSafety_deterministic
           squareName lenientStringToSquare constPositioning constOpenFiles
           corneredKing).
  reflexivity.
Defined.

(** C1 as stated fails on the two kings alone, a position with both kings
    on the board: the exposed-king heuristic raises on an empty neighbour of
    the king, no Score is returned and the four later heuristics are never
    called (with a [stringToSquare] that raises on the digit strings of the
    pawn shield, the first heuristic already raises).  And where a Score is
    returned, the mobility heuristic is called without the side. *)
Lemma evaluateKingSafety_not_always_weighted_sum :
  kingOnBoard twoKings = true
  /\ snd (evaluateKingSafety squareName lenientStringToSquare
            constPositioning constOpenFiles a8 twoKings)
     = Throw bad_optional_access
  /\ map callee
         (fst (evaluateKingSafety squareName lenientStringToSquare
                 constPositioning constOpenFiles a8 twoKings))
     = [ PawnShield; ExposedKing ]
  /\ snd (evaluateKingSafety squareName strictStringToSquare
            constPositioning constOpenFiles a8 twoKings)
     = Throw collaborator_error
  /\ map (fun i => (callee i, isWhiteArg i))
         (fst (evaluateKingSafety squareName lenientStringToSquare
                 constPositioning constOpenFiles a8 corneredKing))
     = [ (PawnShield, Some true); (ExposedKing, Some true);
         (EnemyAttacks, Some true); (KingPositioning, Some true);
         (KingMobility, None); (OpenFiles, Some true) ].
Proof. vm_compute. repeat split. Qed.

(** C4, on a position where White, to move, has no king: the king search
    leaves [kingPosition] as it found it, no KingNotFound failure exists,
    and the heuristics run on whatever the variable held.  Had it held a1,
    whose neighbours are all occupied, a Score is returned; had it held a2,
    the exposed-king heuristic raises [std::bad_optional_access]. *)
Theorem evaluateKingSafety_without_king :
  kingOnBoard noWhiteKing = false
  /\ (forall u : square,
         kingBoardLoop (board noWhiteKing)
                       (color_eqb (turn noWhiteKing) WHITE) u = u)
  /\ snd (evaluateKingSafety squareName lenientStringToSquare
            constPositioning constOpenFiles a1 noWhiteKing)
     = Ok (0 + 1.0 * 0 + (-0.5) * 0 + (-0.2) * 0 + (-0.8) * 1 + 0.1 * 2
           + (-1.0) * 2)%float
  /\ snd (evaluateKingSafety squareName lenientStringToSquare
            constPositioning constOpenFiles a2 noWhiteKing)
     = Throw bad_optional_access.
Proof.
  split; [ vm_compute; reflexivity | ].
  split.
  { intros u. apply kingBoardLoop_no_king. vm_compute. reflexivity. }
  vm_compute. split; reflexivity.
Qed.

(** C8, on the same position without a white king: two calls of
    [evaluateKingSafety] on this one snapshot need not agree.  The king
    search assigns nothing, so each call works on what its local
    [kingPosition] happens to hold: a call that finds a1 there returns a
    Score, a call that finds a2 there raises [std::bad_optional_access].
    The result is not a function of the snapshot. *)
Theorem evaluateKingSafety_kingless_calls_differ :
  kingOnBoard noWhiteKing = false
  /\ (exists score,
         snd (evaluateKingSafety squareName lenientStringToSquare
                constPositioning constOpenFiles a1 noWhiteKing)
         = Ok score)
  /\ (exists e,
         snd (evaluateKingSafety squareName lenientStringToSquare
                constPositioning constOpenFiles a2 noWhiteKing)
         = Throw e)
  /\ snd (evaluateKingSafety squareName lenientStringToSquare
            constPositioning constOpenFiles a1 noWhiteKing)
     <> snd (evaluateKingSafety squareName lenientStringToSquare
               constPositioning constOpenFiles a2 noWhiteKing).
Proof.
  split; [ vm_compute; reflexivity | ].
  split; [ eexists; vm_compute; reflexivity | ].
  split; [ eexists; vm_compute; reflexivity | ].
  vm_compute. discriminate.
Qed.

(** * Further properties of the code *)

(** ** Square geometry on every integer *)

Lemma createSquare_Some_inv (rank file : Z) (sq : square) :
  createSquare rank file = Some sq ->
  0 <= rank <= 7 /\ 0 <= file <= 7 /\ sq = rank * 8 + file.
Proof.
  intros H. destruct (in_range_dec rank file) as [[Hr Hf] | Hout].
  - rewrite (createSquare_in_range rank file Hr Hf) in H.
    injection H as <-. auto.
  - rewrite (createSquare_out_of_range rank file Hout) in H. discriminate.
Qed.

Lemma getRank_getFile_decompose (sq : square) :
  getRank sq * 8 + getFile sq = sq
  /\ (0 <= sq -> 0 <= getRank sq /\ 0 <= getFile sq <= 7)
  /\ (sq <= 0 -> getRank sq <= 0 /\ -7 <= getFile sq <= 0).
Proof.
  unfold getRank, getFile.
  pose proof (Z.quot_rem' sq 8) as E.
  split; [ lia | ]. split; intros H.
  - pose proof (Z.rem_bound_pos sq 8 H ltac:(lia)).
    pose proof (Z.quot_pos sq 8 H ltac:(lia)). lia.
  - pose proof (Z.rem_bound_pos_neg sq 8 ltac:(lia) H). lia.
Qed.

(** X1: a square built by [createSquare] lies on the board (index 0..63),
    has the rank and the file it was built from, and is built from no other
    rank and file. *)
Theorem createSquare_on_board_injective :
  forall (rank file rank' file' : Z) (sq : square),
    createSquare rank file = Some sq ->
    0 <= sq <= 63
    /\ getRank sq = rank /\ getFile sq = file
    /\ (createSquare rank' file' = Some sq -> rank' = rank /\ file' = file).
Proof.
  intros rank file rank' file' sq H.
  destruct (createSquare_Some_inv _ _ _ H) as (Hr & Hf & ->).
  destruct (getRank_getFile_of_index rank file Hr Hf) as [Er Ef].
  split; [ lia | ]. split; [ exact Er | ]. split; [ exact Ef | ].
  intros H'. destruct (createSquare_Some_inv _ _ _ H') as (Hr' & Hf' & E).
  lia.
Qed.

Lemma createSquare_on_board_injective_witness :
  0 <= e1 <= 63
  /\ getRank e1 = 7 /\ getFile e1 = 4
  /\ (createSquare 3 36 = Some e1 -> 3 = 7 /\ 36 = 4).
Proof.
  apply (createSquare_on_board_injective 7 4 3 36 e1). reflexivity.
Defined.

(** X2: rebuilding a square from its rank and file fails exactly for the
    integers off the board: [createSquare (getRank sq) (getFile sq)] is the
    empty optional if and only if [sq] is negative or above 63. *)
Theorem createSquare_getRank_getFile_off_board :
  forall sq : square,
    createSquare (getRank sq) (getFile sq) = None <-> (sq < 0 \/ 63 < sq).
Proof.
  intros sq. destruct (getRank_getFile_decompose sq) as (E & Hpos & Hneg).
  split.
  - intros H. destruct (Z.lt_ge_cases sq 0) as [ | H0 ]; [ now left | ].
    destruct (Z.lt_ge_cases 63 sq) as [ | H63 ]; [ now right | ].
    destruct (getRank_getFile_bounds sq ltac:(lia)) as (Hr & Hf & _).
    rewrite (createSquare_in_range _ _ Hr Hf) in H. discriminate.
  - intros H. apply createSquare_out_of_range.
    destruct H as [ H | H ].
    + specialize (Hneg ltac:(lia)). lia.
    + specialize (Hpos ltac:(lia)). lia.
Qed.

(** X3: [getRank] and [getFile] split every integer, not only 0..63, as
    [getRank sq * 8 + getFile sq = sq]; the division truncates towards zero,
    so a negative [sq] gets a rank and a file that are negative or zero, and
    the file always stays within -7..7. *)
Theorem getRank_getFile_truncate :
  forall sq : square,
    getRank sq * 8 + getFile sq = sq
    /\ -7 <= getFile sq <= 7
    /\ (0 <= sq -> 0 <= getRank sq /\ 0 <= getFile sq)
    /\ (sq < 0 -> getRank sq <= 0 /\ getFile sq <= 0
                  /\ (getRank sq < 0 \/ getFile sq < 0)).
Proof.
  intros sq. destruct (getRank_getFile_decompose sq) as (E & Hpos & Hneg).
  split; [ exact E | ]. split.
  - destruct (Z.le_ge_cases 0 sq) as [ H | H ];
      [ specialize (Hpos H) | specialize (Hneg H) ]; lia.
  - split; intros H; [ specialize (Hpos H) | specialize (Hneg ltac:(lia)) ];
      lia.
Qed.

Lemma getRank_getFile_truncate_witness :
  (0 <= 60 -> 0 <= getRank 60 /\ 0 <= getFile 60)
  /\ (-1 < 0 -> getRank (-1) <= 0 /\ getFile (-1) <= 0
                /\ (getRank (-1) < 0 \/ getFile (-1) < 0)).
Proof.
  split.
  - apply (getRank_getFile_truncate 60).
  - apply (getRank_getFile_truncate (-1)).
Defined.

Lemma surroundingLoop_In (rank file : Z) (offs : list (Z * Z)) :
  forall surrounding n,
    In n (surroundingLoop rank file offs surrounding) ->
    In n surrounding
    \/ exists o, In o offs
                 /\ createSquare (rank + fst o) (file + snd o) = Some n.
Proof.
  induction offs as [ | o offs IH ]; intros acc n; simpl.
  - now left.
  - destruct (createSquare (rank + fst o) (file + snd o)) as [ m | ] eqn:E.
    + intros H. destruct (IH _ _ H) as [ Hacc | (o' & Ho' & Hn) ].
      * apply in_app_or in Hacc. destruct Hacc as [ Hacc | [ <- | [] ] ].
        -- now left.
        -- right. exists o. split; [ now left | exact E ].
      * right. exists o'. split; [ now right | exact Hn ].
    + intros H. destruct (IH _ _ H) as [ Hacc | (o' & Ho' & Hn) ].
      * now left.
      * right. exists o'. split; [ now right | exact Hn ].
Qed.

Lemma offsets_steps (o : Z * Z) :
  In o offsets ->
  -1 <= fst o <= 1 /\ -1 <= snd o <= 1 /\ 8 * fst o + snd o <> 0.
Proof.
  unfold offsets. simpl.
  intros H.
  repeat (destruct H as [ <- | H ]; [ simpl; lia | ]). destruct H.
Qed.

(** X4: for every integer [sq], on the board or not, [getSurroundingSquares]
    returns at most eight squares, each on the board (index 0..63), at most
    one rank and one file away from [sq], and never [sq] itself. *)
Theorem getSurroundingSquares_any_square :
  forall sq : square,
    (List.length (getSurroundingSquares sq) <= 8)%nat
    /\ forall n, In n (getSurroundingSquares sq) ->
                 0 <= n <= 63
                 /\ Z.abs (getRank n - getRank sq) <= 1
                 /\ Z.abs (getFile n - getFile sq) <= 1
                 /\ n <> sq.
Proof.
  intros sq. split; [ apply getSurroundingSquares_at_most_8 | ].
  intros n H. unfold getSurroundingSquares in H.
  destruct (surroundingLoop_In _ _ _ _ _ H) as [ [] | (o & Ho & Hn) ].
  destruct (offsets_steps o Ho) as (Hdr & Hdf & Hne).
  destruct (createSquare_Some_inv _ _ _ Hn) as (Hr & Hf & E).
  destruct (getRank_getFile_of_index _ _ Hr Hf) as [Er Ef].
  rewrite <- E in Er, Ef.
  destruct (getRank_getFile_decompose sq) as (Esq & _ & _).
  repeat split; lia.
Qed.

(** X5: a square two ranks or more off the board (index 72 and above, or
    -16 and below) has no neighbour: [getSurroundingSquares] is empty, and
    the two heuristics that walk over it return zero without looking at the
    position. *)
Theorem getSurroundingSquares_far_off_board :
  forall (sq : square) (game : Chess) (isWhite : bool),
    72 <= sq \/ sq <= -16 ->
    getSurroundingSquares sq = []
    /\ evaluateExposedKing game sq isWhite = Ok 0
    /\ evaluateEnemyAttacks game sq isWhite = Ok 0%float.
Proof.
  intros sq game isWhite H.
  assert (E : getSurroundingSquares sq = []).
  { destruct (getSurroundingSquares sq) as [ | n l ] eqn:El; [ reflexivity | ].
    destruct (getSurroundingSquares_at_most_8 sq) as [ | ];
      destruct (surroundingLoop_In (getRank sq) (getFile sq) offsets [] n)
        as [ [] | (o & Ho & Hn) ];
      try (fold (getSurroundingSquares sq); rewrite El; now left).
    all: destruct (offsets_steps o Ho) as (Hdr & _ & _);
      destruct (createSquare_Some_inv _ _ _ Hn) as (Hr & _ & _);
      destruct (getRank_getFile_decompose sq) as (Esq & Hpos & Hneg);
      destruct H as [ H | H ];
      [ specialize (Hpos ltac:(lia)) | specialize (Hneg ltac:(lia)) ]; lia. }
  unfold evaluateExposedKing, evaluateEnemyAttacks. rewrite E.
  repeat split.
Qed.

Lemma getSurroundingSquares_far_off_board_witness :
  getSurroundingSquares 1000 = []
  /\ evaluateExposedKing twoKings 1000 true = Ok 0
  /\ evaluateEnemyAttacks twoKings 1000 true = Ok 0%float.
Proof.
  apply (getSurroundingSquares_far_off_board 1000 twoKings true). lia.
Defined.

Lemma increasing_Sorted (l : list Z) :
  increasing l = true -> StronglySorted Z.lt l.
Proof.
  intros H. apply Sorted_StronglySorted; [ exact Z.lt_trans | ].
  induction l as [ | x l IH ]; [ constructor | ].
  simpl in H. destruct l as [ | y l ].
  - repeat constructor.
  - apply andb_prop in H. destruct H as [Hxy Hl].
    constructor; [ now apply IH | ].
    constructor. now apply Z.ltb_lt.
Qed.

(** X6: on the board, [getSurroundingSquares] lists the neighbours in
    strictly increasing index order (from the a8 corner, row by row), so a
    loop over them meets them in the same order on every call. *)
Theorem getSurroundingSquares_increasing :
  forall sq : square,
    0 <= sq <= 63 -> StronglySorted Z.lt (getSurroundingSquares sq).
Proof.
  intros sq H. apply increasing_Sorted.
  assert (Hall :
    forallb (fun s => increasing (getSurroundingSquares s)) allSquares = true)
    by (vm_compute; reflexivity).
  exact (on_allSquares _ Hall sq H).
Qed.

Lemma getSurroundingSquares_increasing_witness :
  StronglySorted Z.lt (getSurroundingSquares e2).
Proof.
  apply (getSurroundingSquares_increasing e2). unfold e2. lia.
Defined.

(** X7: the table [SQUARES] and the rank/file split agree: the name at
    index [sq] of the 64 names is the file letter, a..h for [getFile sq]
    0..7, followed by the rank digit [8 - getRank sq]; so [getRank] is 0 on
    the eighth rank and 7 on the first. *)
Theorem SQUARES_name_of_rank_file :
  forall sq : square,
    0 <= sq <= 63 ->
    List.length SQUARES = 64%nat
    /\ nth (Z.to_nat sq) SQUARES ""%string
       = String (ascii_of_N (Z.to_N (97 + getFile sq)))
           (String (ascii_of_N (Z.to_N (56 - getRank sq))) EmptyString).
Proof.
  intros sq H. split; [ reflexivity | ].
  assert (Hall :
    forallb (fun s =>
               String.eqb
                 (nth (Z.to_nat s) SQUARES ""%string)
                 (String (ascii_of_N (Z.to_N (97 + getFile s)))
                    (String (ascii_of_N (Z.to_N (56 - getRank s)))
                       EmptyString)))
            allSquares = true) by (vm_compute; reflexivity).
  apply String.eqb_eq. exact (on_allSquares _ Hall sq H).
Qed.

Lemma SQUARES_name_of_rank_file_witness :
  List.length SQUARES = 64%nat
  /\ nth (Z.to_nat e1) SQUARES ""%string
     = String (ascii_of_N (Z.to_N (97 + getFile e1)))
         (String (ascii_of_N (Z.to_N (56 - getRank e1))) EmptyString).
Proof.
  apply (SQUARES_name_of_rank_file e1). unfold e1. lia.
Defined.

(** ** Piece lookup *)

Lemma rowSquares_In (row : list squ) (sq : square)
    (ps : pieceSymbol) (c : color) :
  In (Some (sq, ps, c)) row -> In sq (rowSquares row).
Proof.
  intros H. unfold rowSquares. apply in_flat_map.
  exists (Some (sq, ps, c)). split; [ exact H | now left ].
Qed.

Lemma pieceOnSquare_row_None (row : list squ) (sq : square) :
  pieceOnSquare_row row sq = None <-> ~ In sq (rowSquares row).
Proof.
  induction row as [ | cell row IH ]; simpl.
  - split; auto.
  - destruct cell as [ [[s ps] c] | ]; simpl.
    + destruct (Z.eqb_spec s sq) as [ -> | Hne ].
      * split; [ discriminate | intros H; exfalso; apply H; now left ].
      * rewrite IH. split.
        -- intros H [ E | Hin ]; [ now apply Hne | now apply H ].
        -- intros H Hin. apply H. now right.
    + exact IH.
Qed.

Lemma pieceOnSquare_rows_None (rows : list (list squ)) (sq : square) :
  pieceOnSquare_rows rows sq = None <-> ~ In sq (cellSquares rows).
Proof.
  induction rows as [ | row rows IH ]; simpl.
  - split; auto.
  - destruct (pieceOnSquare_row row sq) as [ found | ] eqn:E.
    + split; [ discriminate | ].
      intros H. exfalso. apply H. apply in_or_app. left.
      destruct (in_dec Z.eq_dec sq (rowSquares row)) as [ Hin | Hout ];
        [ exact Hin | ].
      apply pieceOnSquare_row_None in Hout. congruence.
    + rewrite IH. apply pieceOnSquare_row_None in E. split.
      * intros H Hin. apply in_app_or in Hin. tauto.
      * intros H Hin. apply H. apply in_or_app. now right.
Qed.

(** X8: [pieceOnSquare] finds nothing exactly when no cell of the board
    records the square, and a piece it returns stands in a cell of the
    board that records this square. *)
Theorem pieceOnSquare_found_iff_recorded :
  forall (game : Chess) (sq : square),
    (pieceOnSquare game sq = None <-> ~ In sq (cellSquares (board game)))
    /\ forall ps c,
         pieceOnSquare game sq = Some (ps, c) ->
         exists row, In row (board game) /\ In (Some (sq, ps, c)) row.
Proof.
  intros game sq. split.
  - apply pieceOnSquare_rows_None.
  - intros ps c. apply pieceOnSquare_In.
Qed.

Lemma NoDup_app_disjoint (l1 l2 : list square) (a : square) :
  NoDup (l1 ++ l2) -> In a l1 -> In a l2 -> False.
Proof.
  induction l1 as [ | x l1 IH ]; simpl; intros Hnd H1 H2; [ exact H1 | ].
  apply NoDup_cons_iff in Hnd. destruct Hnd as [Hx Hnd].
  destruct H1 as [ -> | H1 ].
  - apply Hx. apply in_or_app. now right.
  - now apply IH.
Qed.

Lemma pieceOnSquare_row_unique (row : list squ) (sq : square)
    (ps : pieceSymbol) (c : color) :
  NoDup (rowSquares row) ->
  In (Some (sq, ps, c)) row ->
  pieceOnSquare_row row sq = Some (ps, c).
Proof.
  induction row as [ | cell row IH ]; simpl; intros Hnd Hin; [ destruct Hin | ].
  destruct cell as [ [[s ps'] c'] | ]; simpl in Hnd.
  - apply NoDup_cons_iff in Hnd. destruct Hnd as [Hs Hnd].
    destruct Hin as [ E | Hin ].
    + injection E as -> -> ->. now rewrite Z.eqb_refl.
    + destruct (Z.eqb_spec s sq) as [ -> | _ ].
      * exfalso. apply Hs. now apply (rowSquares_In row sq ps c).
      * now apply IH.
  - destruct Hin as [ E | Hin ]; [ discriminate | now apply IH ].
Qed.

Lemma pieceOnSquare_rows_unique (rows : list (list squ)) (row : list squ)
    (sq : square) (ps : pieceSymbol) (c : color) :
  NoDup (cellSquares rows) ->
  In row rows -> In (Some (sq, ps, c)) row ->
  pieceOnSquare_rows rows sq = Some (ps, c).
Proof.
  induction rows as [ | r rows IH ]; simpl; intros Hnd Hrow Hin;
    [ destruct Hrow | ].
  destruct Hrow as [ -> | Hrow ].
  - rewrite (pieceOnSquare_row_unique row sq ps c); auto.
    now apply NoDup_app_remove_r in Hnd.
  - destruct (pieceOnSquare_row r sq) as [ [ps' c'] | ] eqn:E.
    + exfalso. apply (NoDup_app_disjoint _ _ sq Hnd).
      * apply (rowSquares_In r sq ps' c'). now apply pieceOnSquare_row_In.
      * unfold cellSquares. apply in_flat_map. exists row.
        split; [ exact Hrow | now apply (rowSquares_In row sq ps c) ].
    + apply IH; auto. now apply NoDup_app_remove_l in Hnd.
Qed.

(** X9: on a board that records no square twice, [pieceOnSquare] returns
    the piece of every occupied cell when asked for the cell's square. *)
Theorem pieceOnSquare_of_cell :
  forall (game : Chess) (row : list squ) (sq : square)
         (ps : pieceSymbol) (c : color),
    NoDup (cellSquares (board game)) ->
    In row (board game) -> In (Some (sq, ps, c)) row ->
    pieceOnSquare game sq = Some (ps, c).
Proof.
  intros game row sq ps c. apply pieceOnSquare_rows_unique.
Qed.

Lemma pieceOnSquare_of_cell_witness :
  pieceOnSquare corneredKing b1 = Some (KNIGHT, WHITE).
Proof.
  apply (pieceOnSquare_of_cell corneredKing
           [ Some (a1, KING, WHITE); Some (b1, KNIGHT, WHITE);
             None; None; None; None; None; None ]
           b1 KNIGHT WHITE).
  - apply distinctSquares_NoDup. vm_compute. reflexivity.
  - vm_compute. auto 10.
  - simpl. auto.
Defined.

(** ** The enemy-attacks heuristic on every position *)

Section EnemyAttacks.

Variable game : Chess.
Variable opponentSide : color.

Lemma attackersLoop_unattacked (sq : square)
    (attackingPieces : list (option pieceSymbol)) :
  isAttacked game sq opponentSide = false ->
  forall attackScore,
    attackersLoop game opponentSide sq attackingPieces attackScore
    = Ok attackScore.
Proof.
  intros H. induction attackingPieces as [ | a l IH ]; intros acc; simpl.
  - reflexivity.
  - rewrite H. apply IH.
Qed.

Lemma attackersLoop_no_king (sq : square)
    (attackingPieces : list (option pieceSymbol)) :
  (forall a, In a attackingPieces -> exists p, a = Some p /\ p <> KING) ->
  attackersLoop game opponentSide sq attackingPieces 0%float = Ok 0%float.
Proof.
  induction attackingPieces as [ | a l IH ]; intros H; simpl.
  - reflexivity.
  - assert (Hl : forall b, In b l -> exists p, b = Some p /\ p <> KING)
      by (intros b Hb; apply H; now right).
    destruct (isAttacked game sq opponentSide); [ | now apply IH ].
    destruct (H a (or_introl eq_refl)) as (p & -> & Hp).
    destruct p; try congruence; simpl; now apply IH.
Qed.

Lemma attackersLoop_Ok (sq : square)
    (attackingPieces : list (option pieceSymbol)) :
  ~ In None attackingPieces ->
  forall attackScore,
    exists attackScore',
      attackersLoop game opponentSide sq attackingPieces attackScore
      = Ok attackScore'.
Proof.
  induction attackingPieces as [ | a l IH ]; intros H acc; simpl.
  - now exists acc.
  - assert (Hl : ~ In None l) by (intros Hin; apply H; now right).
    destruct (isAttacked game sq opponentSide); [ | now apply IH ].
    destruct a as [ p | ]; [ | exfalso; apply H; now left ].
    destruct (getPieceValue_quot_10 p) as (v & Hv & _).
    simpl. rewrite Hv. simpl. now apply IH.
Qed.

Lemma attackersLoop_Throw (sq : square)
    (attackingPieces : list (option pieceSymbol)) :
  isAttacked game sq opponentSide = true ->
  In None attackingPieces ->
  forall attackScore,
    attackersLoop game opponentSide sq attackingPieces attackScore
    = Throw bad_optional_access.
Proof.
  intros Ha. induction attackingPieces as [ | a l IH ]; intros H acc; simpl.
  - destruct H.
  - rewrite Ha. destruct a as [ p | ]; [ | reflexivity ].
    destruct H as [ E | H ]; [ discriminate | ].
    destruct (getPieceValue_quot_10 p) as (v & Hv & _).
    simpl. rewrite Hv. simpl. now apply IH.
Qed.

Lemma In_None_dec (l : list (option pieceSymbol)) :
  In None l \/ ~ In None l.
Proof.
  induction l as [ | a l [ IH | IH ] ].
  - right. intros [].
  - left. now right.
  - destruct a as [ p | ].
    + right. intros [ E | H ]; [ discriminate | now apply IH ].
    + left. now left.
Qed.

Lemma emptyAttacker_dec (sq : square) :
  emptyAttacker game opponentSide sq \/ ~ emptyAttacker game opponentSide sq.
Proof.
  unfold emptyAttacker.
  destruct (noAttackers (getAttackingPieces game opponentSide sq));
    [ right; intros (H & _); discriminate | ].
  destruct (isAttacked game sq opponentSide);
    [ | right; intros (_ & H & _); discriminate ].
  destruct (In_None_dec (getAttackingPieces game opponentSide sq)) as [ H | H ].
  - left. auto.
  - right. intros (_ & _ & H'). now apply H.
Qed.

Lemma zoneLoop_step_Ok (sq : square) (attackScore : float) :
  ~ emptyAttacker game opponentSide sq ->
  noAttackers (getAttackingPieces game opponentSide sq) = false ->
  exists attackScore',
    attackersLoop game opponentSide sq
      (getAttackingPieces game opponentSide sq) attackScore
    = Ok attackScore'.
Proof.
  intros Hsq Hna.
  destruct (isAttacked game sq opponentSide) eqn:Ha.
  - apply attackersLoop_Ok. intros Hin. apply Hsq.
    unfold emptyAttacker. auto.
  - exists attackScore. now apply attackersLoop_unattacked.
Qed.

Lemma zoneLoop_Ok (safetyZone : list square) :
  (forall sq, In sq safetyZone -> ~ emptyAttacker game opponentSide sq) ->
  forall attackScore,
    exists attackScore',
      zoneLoop game opponentSide safetyZone attackScore = Ok attackScore'.
Proof.
  induction safetyZone as [ | sq rest IH ]; intros H acc; simpl.
  - now exists acc.
  - assert (Hrest : forall s, In s rest -> ~ emptyAttacker game opponentSide s)
      by (intros s Hs; apply H; now right).
    destruct (noAttackers (getAttackingPieces game opponentSide sq)) eqn:Hna;
      [ now apply IH | ].
    destruct (zoneLoop_step_Ok sq acc (H sq (or_introl eq_refl)) Hna)
      as (acc' & ->).
    simpl. now apply IH.
Qed.

Lemma zoneLoop_Throw (safetyZone : list square) :
  (exists sq, In sq safetyZone /\ emptyAttacker game opponentSide sq) ->
  forall attackScore,
    zoneLoop game opponentSide safetyZone attackScore
    = Throw bad_optional_access.
Proof.
  induction safetyZone as [ | sq rest IH ]; intros (s & Hin & Hs) acc.
  - destruct Hin.
  - simpl. destruct (emptyAttacker_dec sq) as [ (Hna & Ha & Hnone) | Hsq ].
    + rewrite Hna. now rewrite (attackersLoop_Throw sq _ Ha Hnone).
    + assert (Hrest : exists s', In s' rest
                                 /\ emptyAttacker game opponentSide s').
      { destruct Hin as [ <- | Hin ]; [ contradiction | ].
        exists s. now split. }
      destruct (noAttackers (getAttackingPieces game opponentSide sq)) eqn:Hna;
        [ now apply IH | ].
      destruct (zoneLoop_step_Ok sq acc Hsq Hna) as (acc' & ->).
      simpl. now apply IH.
Qed.

Lemma zoneLoop_zero (safetyZone : list square) :
  (forall sq, In sq safetyZone ->
     noAttackers (getAttackingPieces game opponentSide sq) = true
     \/ isAttacked game sq opponentSide = false
     \/ forall a, In a (getAttackingPieces game opponentSide sq) ->
                  exists p, a = Some p /\ p <> KING) ->
  zoneLoop game opponentSide safetyZone 0%float = Ok 0%float.
Proof.
  induction safetyZone as [ | sq rest IH ]; intros H; simpl.
  - reflexivity.
  - assert (Hrest : forall s, In s rest ->
              noAttackers (getAttackingPieces game opponentSide s) = true
              \/ isAttacked game s opponentSide = false
              \/ forall a, In a (getAttackingPieces game opponentSide s) ->
                           exists p, a = Some p /\ p <> KING)
      by (intros s Hs; apply H; now right).
    destruct (noAttackers (getAttackingPieces game opponentSide sq)) eqn:Hna;
      [ now apply IH | ].
    destruct (H sq (or_introl eq_refl)) as [ E | [ Ha | Hk ] ];
      [ congruence | | ].
    + rewrite (attackersLoop_unattacked sq _ Ha). simpl. now apply IH.
    + rewrite (attackersLoop_no_king sq _ Hk). simpl. now apply IH.
Qed.

End EnemyAttacks.

(** X10: [evaluateEnemyAttacks] returns exactly 0.0 whenever, at every
    neighbour square of the king, the list of attackers is empty or starts
    with an empty entry, or the square is not attacked, or every attacker
    listed is a piece other than a king: the quotient [value / 10] of two
    [int]s is 0 for a pawn, knight, bishop, rook and queen. *)
Theorem evaluateEnemyAttacks_zero_without_king :
  forall (game : Chess) (kingPos : square) (isWhite : bool),
    (forall sq, In sq (getSurroundingSquares kingPos) ->
       noAttackers
         (getAttackingPieces game (if isWhite then BLACK else WHITE) sq) = true
       \/ isAttacked game sq (if isWhite then BLACK else WHITE) = false
       \/ forall a,
            In a (getAttackingPieces game (if isWhite then BLACK else WHITE)
                                     sq) ->
            exists p, a = Some p /\ p <> KING) ->
    evaluateEnemyAttacks game kingPos isWhite = Ok 0%float.
Proof.
  intros game kingPos isWhite H. unfold evaluateEnemyAttacks.
  now apply zoneLoop_zero.
Qed.

Lemma evaluateEnemyAttacks_zero_without_king_witness :
  evaluateEnemyAttacks pawnNearKing e1 true = Ok 0%float.
Proof.
  apply (evaluateEnemyAttacks_zero_without_king pawnNearKing e1 true).
  intros sq Hin. vm_compute in Hin.
  destruct Hin as [ <- | [ <- | [ <- | [ <- | [ <- | [] ] ] ] ] ].
  - right. right. intros a Ha. vm_compute in Ha.
    destruct Ha as [ <- | [] ]. exists PAWN. split; [ reflexivity | discriminate ].
  - left. reflexivity.
  - right. right. intros a Ha. vm_compute in Ha.
    destruct Ha as [ <- | [] ]. exists PAWN. split; [ reflexivity | discriminate ].
  - left. reflexivity.
  - left. reflexivity.
Defined.

(** X11: the only exception [evaluateEnemyAttacks] raises is
    [std::bad_optional_access] ([getPieceValue] never raises
    [std::out_of_range]), and it raises it exactly when some neighbour
    square of the king is attacked and its list of attackers starts with a
    piece and holds an empty entry further on. *)
Theorem evaluateEnemyAttacks_raises_iff_empty_attacker :
  forall (game : Chess) (kingPos : square) (isWhite : bool),
    (evaluateEnemyAttacks game kingPos isWhite = Throw bad_optional_access
     <-> exists sq,
           In sq (getSurroundingSquares kingPos)
           /\ emptyAttacker game (if isWhite then BLACK else WHITE) sq)
    /\ forall e,
         evaluateEnemyAttacks game kingPos isWhite = Throw e ->
         e = bad_optional_access.
Proof.
  intros game kingPos isWhite. unfold evaluateEnemyAttacks.
  set (opp := if isWhite then BLACK else WHITE).
  set (zone := getSurroundingSquares kingPos).
  assert (Hcases :
    (exists sq, In sq zone /\ emptyAttacker game opp sq)
    \/ (forall sq, In sq zone -> ~ emptyAttacker game opp sq)).
  { induction zone as [ | x l [ (s & Hs & He) | IH ] ].
    - right. intros sq [].
    - left. exists s. split; [ now right | exact He ].
    - destruct (emptyAttacker_dec game opp x) as [ Hx | Hx ].
      + left. exists x. split; [ now left | exact Hx ].
      + right. intros sq [ <- | Hin ]; [ exact Hx | now apply IH ]. }
  destruct Hcases as [ Hex | Hall ].
  - rewrite (zoneLoop_Throw game opp zone Hex). split.
    + split; auto.
    + intros e E. now injection E as <-.
  - destruct (zoneLoop_Ok game opp zone Hall 0%float) as (acc & ->). split.
    + split; [ discriminate | ].
      intros (sq & Hin & He). now apply Hall in Hin.
    + intros e E. discriminate.
Qed.

(** ** The exposed-king, pawn-shield and mobility heuristics *)

(** X12: for a king square on the board, a count returned by
    [evaluateExposedKing] is the number of neighbour squares that hold a
    piece of the other colour or are attacked by the other side (every
    neighbour then holds a piece), and it is at most 3 for a corner king,
    5 for a king on another edge square and 8 otherwise. *)
Theorem evaluateExposedKing_count_bounds :
  forall (game : Chess) (kingPos : square) (isWhite : bool) (n : Z),
    0 <= kingPos <= 63 ->
    evaluateExposedKing game kingPos isWhite = Ok n ->
    (forall sq, In sq (getSurroundingSquares kingPos) ->
                pieceOnSquare game sq <> None)
    /\ n = Z.of_nat
             (List.length
                (filter (isExposed game (if isWhite then WHITE else BLACK)
                                   (if isWhite then BLACK else WHITE))
                        (getSurroundingSquares kingPos)))
    /\ 0 <= n <= (if isCorner kingPos then 3
                  else if isEdge kingPos then 5 else 8).
Proof.
  intros game kingPos isWhite n Hk Hn.
  destruct (occupied_or_empty game (getSurroundingSquares kingPos))
    as [ Hocc | Hempty ].
  - destruct (evaluateExposedKing_occupied_neighbours game kingPos isWhite Hocc)
      as (m & Hm & Hcount & _).
    rewrite Hn in Hm. injection Hm as <-.
    split; [ exact Hocc | ]. split; [ exact Hcount | ].
    assert (Hall :
      forallb (fun s =>
                 Z.of_nat (List.length (getSurroundingSquares s))
                 <=? (if isCorner s then 3 else if isEdge s then 5 else 8))
              allSquares = true) by (vm_compute; reflexivity).
    pose proof (on_allSquares _ Hall kingPos Hk) as Hlen. cbv beta in Hlen.
    apply Z.leb_le in Hlen.
    pose proof (filter_length_le
                  (isExposed game (if isWhite then WHITE else BLACK)
                             (if isWhite then BLACK else WHITE))
                  (getSurroundingSquares kingPos)).
    lia.
  - unfold evaluateExposedKing in Hn.
    rewrite (exposedLoop_empty _ _ _ _ Hempty) in Hn. discriminate.
Qed.

Lemma evaluateExposedKing_count_bounds_witness :
  (forall sq, In sq (getSurroundingSquares a1) ->
              pieceOnSquare corneredKing sq <> None)
  /\ 0 = Z.of_nat
           (List.length
              (filter (isExposed corneredKing WHITE BLACK)
                      (getSurroundingSquares a1)))
  /\ 0 <= 0 <= (if isCorner a1 then 3 else if isEdge a1 then 5 else 8).
Proof.
  apply (evaluateExposedKing_count_bounds corneredKing a1 true 0).
  - unfold a1. lia.
  - reflexivity.
Defined.

Lemma shieldLoop_count (game : Chess) (shieldSquares : list square) :
  forall shieldBonus,
    shieldLoop game shieldSquares shieldBonus
    = shieldBonus
      + Z.of_nat
          (List.length
             (filter (fun sq => optional_pair_eqb (pieceOnSquare game sq)
                                                  (PAWN, WHITE))
                     shieldSquares)).
Proof.
  induction shieldSquares as [ | sq rest IH ]; intros acc; simpl.
  - lia.
  - destruct (optional_pair_eqb (pieceOnSquare game sq) (PAWN, WHITE)).
    + rewrite IH. simpl List.length. lia.
    + apply IH.
Qed.

(** X13: whatever [squareToString] and [stringToSquare] are, a value
    returned by [evaluatePawnShield] is the number, between 0 and 3, of
    white pawns standing on three squares that [stringToSquare] returned (a
    square returned twice counts twice), for White and for Black alike; and
    an exception it raises was raised by [stringToSquare]. *)
Theorem evaluatePawnShield_bounds :
  forall (squareToString : square -> string)
         (stringToSquare : string -> result square)
         (game : Chess) (kingPos : square) (isWhite : bool),
    (forall n,
        evaluatePawnShield squareToString stringToSquare game kingPos isWhite
        = Ok n ->
        0 <= n <= 3
        /\ exists s1 s2 s3 str1 str2 str3,
             stringToSquare str1 = Ok s1
             /\ stringToSquare str2 = Ok s2
             /\ stringToSquare str3 = Ok s3
             /\ n = Z.of_nat
                      (List.length
                         (filter (fun sq =>
                                    optional_pair_eqb (pieceOnSquare game sq)
                                                      (PAWN, WHITE))
                                 [s1; s2; s3])))
    /\ (forall e,
           evaluatePawnShield squareToString stringToSquare game kingPos
                              isWhite
           = Throw e ->
           exists str, stringToSquare str = Throw e).
Proof.
  intros sq2s s2sq game kingPos isWhite. unfold evaluatePawnShield.
  destruct (s2sq _) as [ s1 | e1' ] eqn:E1; cbn [bind].
  2: { split; [ discriminate | ].
       intros e E. injection E as <-. eexists. exact E1. }
  destruct (s2sq _) as [ s2 | e2' ] eqn:E2 in |- *; cbn [bind].
  2: { split; [ discriminate | ].
       intros e E. injection E as <-. eexists. exact E2. }
  destruct (s2sq _) as [ s3 | e3' ] eqn:E3 in |- *; cbn [bind].
  2: { split; [ discriminate | ].
       intros e E. injection E as <-. eexists. exact E3. }
  split; [ | discriminate ].
  intros n E.
  assert (En : shieldLoop game [s1; s2; s3] 0 = n) by congruence.
  rewrite (shieldLoop_count game [s1; s2; s3] 0) in En. subst n. clear E.
  pose proof (filter_length_le
                (fun sq => optional_pair_eqb (pieceOnSquare game sq)
                                             (PAWN, WHITE))
                [s1; s2; s3]) as Hle.
  simpl List.length in Hle at 2.
  split; [ lia | ].
  exists s1, s2, s3. do 3 eexists.
  split; [ exact E1 | ]. split; [ exact E2 | ]. split; [ exact E3 | ].
  reflexivity.
Qed.

(** ** The king search and the aggregate *)

Lemma kingBoardLoop_app (rows1 rows2 : list (list squ)) (isWhite : bool) :
  forall u,
    kingBoardLoop (rows1 ++ rows2) isWhite u
    = kingBoardLoop rows2 isWhite (kingBoardLoop rows1 isWhite u).
Proof.
  induction rows1 as [ | row rows1 IH ]; intros u; simpl.
  - reflexivity.
  - apply IH.
Qed.

Lemma kingRowLoop_first (pre post : list squ) (s : square) (c : color)
    (isWhite : bool) (u : square) :
  existsb (isKingOf isWhite) pre = false ->
  isKingOf isWhite (Some (s, KING, c)) = true ->
  kingRowLoop (pre ++ Some (s, KING, c) :: post) isWhite u = s.
Proof.
  intros Hpre Hking. induction pre as [ | cell pre IH ]; simpl.
  - simpl in Hking. destruct c, isWhite; simpl in *; congruence.
  - simpl in Hpre. apply orb_false_elim in Hpre. destruct Hpre as [Hc Hpre].
    destruct cell as [ [[s' ps'] c'] | ]; [ | now apply IH ].
    simpl in Hc. destruct (pieceSymbol_eqb ps' KING); simpl in *;
      [ | now apply IH ].
    apply orb_false_elim in Hc. destruct Hc as [Hw Hb].
    rewrite Hw, Hb. now apply IH.
Qed.

(** X14: when several rows of the board hold a king of the side to move
    (an edited board), the king search of [evaluateKingSafety] ends on the
    first such king of the last such row: [break] leaves only the inner
    loop, so later rows overwrite what earlier rows found, and the value
    [kingPosition] started with is forgotten. *)
Theorem kingBoardLoop_last_row_first_king :
  forall (rows1 rows2 : list (list squ)) (pre post : list squ)
         (s : square) (c : color) (isWhite : bool) (u : square),
    isKingOf isWhite (Some (s, KING, c)) = true ->
    existsb (isKingOf isWhite) pre = false ->
    existsb (existsb (isKingOf isWhite)) rows2 = false ->
    kingBoardLoop (rows1 ++ (pre ++ Some (s, KING, c) :: post) :: rows2)
                  isWhite u
    = s.
Proof.
  intros rows1 rows2 pre post s c isWhite u Hking Hpre Hrows2.
  rewrite kingBoardLoop_app. simpl.
  rewrite (kingBoardLoop_no_king rows2 isWhite Hrows2).
  now apply kingRowLoop_first.
Qed.

Lemma kingBoardLoop_last_row_first_king_witness :
  kingBoardLoop
    ([ [ Some (a8, KING, WHITE); None; None; None;
         Some (e8, KING, BLACK); None; None; None ] ]
     ++ ([ None; None ]
         ++ Some (50, KING, WHITE) :: [ None; Some (e2, KING, WHITE) ])
     :: [ [ Some (a1, KNIGHT, WHITE) ] ])
    true 1000
  = 50.
Proof.
  apply (kingBoardLoop_last_row_first_king
           [ [ Some (a8, KING, WHITE); None; None; None;
               Some (e8, KING, BLACK); None; None; None ] ]
           [ [ Some (a1, KNIGHT, WHITE) ] ]
           [ None; None ] [ None; Some (e2, KING, WHITE) ]
           50 WHITE true 1000); reflexivity.
Defined.

(** The goals left by a heuristic that raises: the calls made are the
    heuristics up to it, and those before it returned. *)
Ltac first_failure :=
  split; [ reflexivity | ];
  split; [ reflexivity | ];
  split; [ reflexivity | ];
  let h := fresh "h" in
  let Hin := fresh "Hin" in
  intros h Hin; simpl in Hin;
  repeat (destruct Hin as [ <- | Hin ]; [ reflexivity | ]);
  destruct Hin.

(** The goals left by the heuristic [h] that raises: no Score. *)
Ltac no_score h :=
  simpl; split; [ split | ];
  [ intros (? & E); discriminate E
  | let Hall := fresh "Hall" in
    intros Hall; specialize (Hall h ltac:(simpl; auto 10));
    simpl in Hall; discriminate Hall
  | intros (? & E); discriminate E ].

Section AggregateOutcomes.

Variable squareToString : square -> string.
Variable stringToSquare : string -> result square.
Variable evaluatePositioning : Chess -> square -> bool -> result float.
Variable evaluateOpenFiles : Chess -> square -> bool -> result float.

Local Notation "'evaluate'" :=
  (evaluateKingSafety squareToString stringToSquare
                      evaluatePositioning evaluateOpenFiles) (only parsing).

Local Notation "'raises'" :=
  (heuristicRaises squareToString stringToSquare
                   evaluatePositioning evaluateOpenFiles) (only parsing).

(** X15: on a board that records no square twice and holds a king of the
    side to move, the square the king search ends on holds that king, so
    the mobility heuristic does not raise there and returns the number of
    moves the engine lists for a king from that square. *)
Theorem evaluateKingMobility_at_king :
  forall (game : Chess) (u : square),
    kingOnBoard game = true ->
    NoDup (cellSquares (board game)) ->
    pieceOnSquare game
      (kingBoardLoop (board game) (color_eqb (turn game) WHITE) u)
    = Some (KING, turn game)
    /\ evaluateKingMobility squareToString game
         (kingBoardLoop (board game) (color_eqb (turn game) WHITE) u)
       = Ok (Z.of_nat
               (List.length
                  (moves game
                     (Some (squareToString
                              (kingBoardLoop (board game)
                                 (color_eqb (turn game) WHITE) u)))
                     (Some KING)))).
Proof.
  intros game u Hking Hnd.
  destruct (kingPosition_on_board game u Hking) as (row & Hrow & Hcell).
  pose proof (pieceOnSquare_rows_unique _ _ _ _ _ Hnd Hrow Hcell) as E.
  fold (pieceOnSquare game
          (kingBoardLoop (board game) (color_eqb (turn game) WHITE) u)) in E.
  split; [ exact E | ].
  unfold evaluateKingMobility. rewrite E. reflexivity.
Qed.

(** X16: when [evaluateKingSafety] ends with an exception, it is the
    exception of the first heuristic, in the order pawn shield, exposed
    king, enemy attacks, positioning, mobility, open files, that raises on
    the king square; the heuristics before it were called and returned, and
    the heuristics after it were not called. *)
Theorem evaluateKingSafety_first_failure :
  forall (u : square) (game : Chess) (e : exn),
    snd (evaluate u game) = Throw e ->
    exists (before after : list heuristic) (h : heuristic),
      heuristicOrder = before ++ h :: after
      /\ map callee (fst (evaluate u game)) = before ++ [h]
      /\ raises game (kingBoardLoop (board game)
                                    (color_eqb (turn game) WHITE) u)
                (color_eqb (turn game) WHITE) h
         = Some e
      /\ forall h', In h' before ->
                    raises game (kingBoardLoop (board game)
                                   (color_eqb (turn game) WHITE) u)
                           (color_eqb (turn game) WHITE) h'
                    = None.
Proof.
  intros u game e.
  unfold evaluateKingSafety, invoke, tbind, tret, heuristicRaises.
  set (isWhite := color_eqb (turn game) WHITE).
  set (k := kingBoardLoop (board game) isWhite u).
  destruct (evaluatePawnShield _ _ game k isWhite) as [ ps | e1' ].
  2: { simpl. intros E. injection E as <-.
       exists [], [ExposedKing; EnemyAttacks; KingPositioning;
                   KingMobility; OpenFiles], PawnShield.
       first_failure. }
  destruct (evaluateExposedKing game k isWhite) as [ ek | e2' ].
  2: { simpl. intros E. injection E as <-.
       exists [PawnShield], [EnemyAttacks; KingPositioning;
                             KingMobility; OpenFiles], ExposedKing.
       first_failure. }
  destruct (evaluateEnemyAttacks game k isWhite) as [ ea | e3' ].
  2: { simpl. intros E. injection E as <-.
       exists [PawnShield; ExposedKing],
              [KingPositioning; KingMobility; OpenFiles], EnemyAttacks.
       first_failure. }
  destruct (evaluatePositioning game k isWhite) as [ kp | e4' ].
  2: { simpl. intros E. injection E as <-.
       exists [PawnShield; ExposedKing; EnemyAttacks],
              [KingMobility; OpenFiles], KingPositioning.
       first_failure. }
  destruct (evaluateKingMobility _ game k) as [ mob | e5' ].
  2: { simpl. intros E. injection E as <-.
       exists [PawnShield; ExposedKing; EnemyAttacks; KingPositioning],
              [OpenFiles], KingMobility.
       first_failure. }
  destruct (evaluateOpenFiles game k isWhite) as [ opf | e6' ].
  2: { simpl. intros E. injection E as <-.
       exists [PawnShield; ExposedKing; EnemyAttacks; KingPositioning;
               KingMobility], [], OpenFiles.
       first_failure. }
  simpl. discriminate.
Qed.

(** X17: [evaluateKingSafety] returns a Score exactly when none of the six
    heuristics raises on the king square, and it has then called every
    heuristic, in the fixed order; there is no partial Score. *)
Theorem evaluateKingSafety_score_iff_no_raise :
  forall (u : square) (game : Chess),
    ((exists score, snd (evaluate u game) = Ok score)
     <-> forall h, In h heuristicOrder ->
                   raises game (kingBoardLoop (board game)
                                  (color_eqb (turn game) WHITE) u)
                          (color_eqb (turn game) WHITE) h
                   = None)
    /\ ((exists score, snd (evaluate u game) = Ok score) ->
        map callee (fst (evaluate u game)) = heuristicOrder).
Proof.
  intros u game.
  unfold evaluateKingSafety, invoke, tbind, tret, heuristicOrder,
    heuristicRaises.
  set (isWhite := color_eqb (turn game) WHITE).
  set (k := kingBoardLoop (board game) isWhite u).
  destruct (evaluatePawnShield _ _ game k isWhite) as [ ps | e1' ];
    [ | no_score PawnShield ].
  destruct (evaluateExposedKing game k isWhite) as [ ek | e2' ];
    [ | no_score ExposedKing ].
  destruct (evaluateEnemyAttacks game k isWhite) as [ ea | e3' ];
    [ | no_score EnemyAttacks ].
  destruct (evaluatePositioning game k isWhite) as [ kp | e4' ];
    [ | no_score KingPositioning ].
  destruct (evaluateKingMobility _ game k) as [ mob | e5' ];
    [ | no_score KingMobility ].
  destruct (evaluateOpenFiles game k isWhite) as [ opf | e6' ];
    [ | no_score OpenFiles ].
  simpl. split; [ split | ].
  - intros _ h Hin.
    repeat (destruct Hin as [ <- | Hin ]; [ reflexivity | ]).
    destruct Hin.
  - intros _. eexists. reflexivity.
  - intros _. reflexivity.
Qed.

End AggregateOutcomes.

Lemma evaluateKingMobility_at_king_witness :
  pieceOnSquare corneredKing a1 = Some (KING, WHITE)
  /\ evaluateKingMobility squareName corneredKing a1 = Ok 0.
Proof.
  apply (evaluateKingMobility_at_king squareName corneredKing a8).
  - reflexivity.
  - apply distinctSquares_NoDup. vm_compute. reflexivity.
Defined.

Lemma evaluateKingSafety_first_failure_witness :
  exists (before after : list heuristic) (h : heuristic),
    heuristicOrder = before ++ h :: after
    /\ map callee
         (fst (evaluateKingSafety squareName lenientStringToSquare
                 constPositioning constOpenFiles a8 twoKings))
       = before ++ [h]
    /\ heuristicRaises squareName lenientStringToSquare
         constPositioning constOpenFiles twoKings e1 true h
       = Some bad_optional_access
    /\ forall h', In h' before ->
                  heuristicRaises squareName lenientStringToSquare
                    constPositioning constOpenFiles twoKings e1 true h'
                  = None.
Proof.
  apply (evaluateKingSafety_first_failure
           squareName lenientStringToSquare constPositioning constOpenFiles
           a8 twoKings bad_optional_access).
  vm_compute. reflexivity.
Defined.
